(** * Unit of Work over a relational store: a shallow embedding of main.py

    The Python program keeps mutable objects (messages, users) that are
    shared by reference between the aggregate handed to the caller and the
    dirty lists of the Unit of Work.  The embedding therefore threads an
    explicit [world] (object store, registry, unit of work, connection)
    through a state-and-exception monad; every class of the source is a
    module whose functions are the methods of that class. *)

From stdpp Require Import gmap strings list fin_maps sorting.

Open Scope string_scope.
Open Scope list_scope.

(** ** Python values, exceptions and the object store *)

(** Exceptions the program can raise.  [PyException msg] is the plain
    [Exception(msg)] of [Registry.get]; [InvalidReference] is not a Python
    exception: it is the result of following a reference that the store
    does not hold, which no Python execution can do. *)
Inductive exn : Type :=
  | PyException (msg : string)
  | AttributeError (attr : string)
  | UnboundLocalError (var : string)
  | NoResultFound
  | MultipleResultsFound
  | IntegrityError
  | StatementError
  | InvalidReference.

Inductive result (A : Type) : Type :=
  | Ok (a : A)
  | Raise (e : exn).
Arguments Ok {A} a.
Arguments Raise {A} e.

(** The class objects used as dictionary keys ("mapper-kind tokens"). *)
Inductive mapper_type : Type :=
  | KUserMapper
  | KMessageMapper
  | KOther (name : string).

Global Instance mapper_type_eq_dec : EqDecision mapper_type.
Proof. solve_decision. Defined.

Global Instance mapper_type_countable : Countable mapper_type.
Proof.
  refine (inj_countable'
    (λ k, match k with
          | KUserMapper => inl false
          | KMessageMapper => inl true
          | KOther s => inr s
          end)
    (λ x, match x with
          | inl false => KUserMapper
          | inl true => KMessageMapper
          | inr s => KOther s
          end) _).
  by intros [].
Defined.

(** Instances of the two mapper classes (each holds the connection). *)
Inductive mapper_instance : Type :=
  | UserMapperObj
  | MessageMapperObj.

(** What a registry slot may hold: the registry is an untyped dict. *)
Inductive value : Type :=
  | VNone
  | VBool (b : bool)
  | VInt (z : Z)
  | VStr (s : string)
  | VMapper (m : mapper_instance).

(** Python truth value: [None], [False], [0] and [''] are falsy; an
    instance of a class without [__bool__] or [__len__] is truthy. *)
Definition truthy (v : value) : bool :=
  match v with
  | VNone => false
  | VBool b => b
  | VInt z => negb (z =? 0)%Z
  | VStr s => negb (String.eqb s "")
  | VMapper _ => true
  end.

(** References into the object store. *)
Abbreviation ref := nat.

(** class MessageProxy: [_message] and the unit of work of the world. *)
Record MessageProxy_t : Type := mkMessageProxy { _message : ref }.

(** An element of [User._messages]: the list is declared [list[Message]]
    but the repository stores message proxies in it (the [cast]). *)
Inductive handle : Type :=
  | RawMessage (r : ref)
  | Proxied (p : MessageProxy_t).

Record Message_t : Type := mkMessage { _message_id : Z; _body : string }.

Record User_t : Type :=
  mkUser { _user_id : Z; _name : string; _messages : list handle }.

(** class UserProxy: [_user] and the unit of work of the world. *)
Record UserProxy_t : Type := mkUserProxy { _user : ref }.

Inductive obj : Type :=
  | OMessage (m : Message_t)
  | OUser (u : User_t).

(** ** The relational store *)

Record MessageRow : Type :=
  mkMessageRow { msg_id : Z; msg_body : string; msg_user_id : option Z }.

(** [users(id PK, name)] is keyed by its primary key; [messages] keeps its
    rows in the order a scan returns them in, which is the order of the
    primary key. *)
Record database : Type :=
  mkDatabase { users : gmap Z string; messages : list MessageRow }.

(** A row of the joined query of [UserRepository.with_id], with the
    labels the query gives its columns. *)
Record Row : Type :=
  mkRow { row_user_id : Z; row_user_name : string;
          row_message_id : Z; row_message_body : string }.

(** The two batched UPDATE templates of the mappers. *)
Inductive statement : Type :=
  | UpdateUsersName      (* UPDATE users SET name=:name WHERE id=:user_id *)
  | UpdateMessagesBody.  (* UPDATE messages SET body=:body WHERE id=:message_id *)

(** ** Insertion-ordered dictionaries (the two maps of the Unit of Work) *)

Definition dict (V : Type) : Type := list (mapper_type * V).

Fixpoint dict_get {V} (k : mapper_type) (d : dict V) : option V :=
  match d with
  | [] => None
  | (k', v) :: d' => if decide (k' = k) then Some v else dict_get k d'
  end.

(** [d.setdefault(k, v)]: a missing key is added at the end. *)
Fixpoint dict_setdefault {V} (k : mapper_type) (v : V) (d : dict V) : dict V :=
  match d with
  | [] => [(k, v)]
  | (k', v') :: d' =>
      if decide (k' = k) then (k', v') :: d'
      else (k', v') :: dict_setdefault k v d'
  end.

(** In-place change of the value stored under [k]. *)
Fixpoint dict_alter {V} (f : V → V) (k : mapper_type) (d : dict V) : dict V :=
  match d with
  | [] => []
  | (k', v') :: d' =>
      if decide (k' = k) then (k', f v') :: d'
      else (k', v') :: dict_alter f k d'
  end.

(** ** The world *)

Inductive method : Type :=
  | m_update_all | m_update | m_add | m_add_all | m_delete.

(** Ghost trace: which mapper methods were entered and when the
    transaction was committed. *)
Inductive event : Type :=
  | MapperCall (m : mapper_instance) (meth : method) (data : list ref)
  | ConnectionCommit.

Record world : Type := mkWorld {
  heap : list obj;
  mappers : gmap mapper_type value;   (* Registry._mappers *)
  new : dict (list ref);              (* UnitOfWork._new *)
  dirty : dict (list ref);            (* UnitOfWork._dirty *)
  txn : database;                     (* what the open connection sees *)
  durable : database;                 (* what has been committed *)
  trace : list event;
  stdout : list string
}.

Definition set_heap (h : list obj) (w : world) : world :=
  mkWorld h (mappers w) (new w) (dirty w) (txn w) (durable w) (trace w) (stdout w).
Definition set_mappers (r : gmap mapper_type value) (w : world) : world :=
  mkWorld (heap w) r (new w) (dirty w) (txn w) (durable w) (trace w) (stdout w).
Definition set_new (d : dict (list ref)) (w : world) : world :=
  mkWorld (heap w) (mappers w) d (dirty w) (txn w) (durable w) (trace w) (stdout w).
Definition set_dirty (d : dict (list ref)) (w : world) : world :=
  mkWorld (heap w) (mappers w) (new w) d (txn w) (durable w) (trace w) (stdout w).
Definition set_txn (d : database) (w : world) : world :=
  mkWorld (heap w) (mappers w) (new w) (dirty w) d (durable w) (trace w) (stdout w).
Definition set_durable (d : database) (w : world) : world :=
  mkWorld (heap w) (mappers w) (new w) (dirty w) (txn w) d (trace w) (stdout w).
Definition set_trace (t : list event) (w : world) : world :=
  mkWorld (heap w) (mappers w) (new w) (dirty w) (txn w) (durable w) t (stdout w).
Definition set_stdout (o : list string) (w : world) : world :=
  mkWorld (heap w) (mappers w) (new w) (dirty w) (txn w) (durable w) (trace w) o.

(** ** The monad of the program: state and exceptions *)

Definition M (A : Type) : Type := world → result A * world.

Global Instance M_ret : MRet M := λ A a w, (Ok a, w).
Global Instance M_bind : MBind M := λ A B f m w,
  match m w with
  | (Ok a, w') => f a w'
  | (Raise e, w') => (Raise e, w')
  end.

Definition raise {A} (e : exn) : M A := λ w, (Raise e, w).
Definition gets {A} (f : world → A) : M A := λ w, (Ok (f w), w).
Definition modify (f : world → world) : M unit := λ w, (Ok tt, f w).

(** [for x in xs: body(x)] *)
Fixpoint for_each {A} (xs : list A) (body : A → M unit) : M unit :=
  match xs with
  | [] => mret tt
  | x :: xs' => body x ;; for_each xs' body
  end.

(** A loop that appends one computed item per element to a local list. *)
Fixpoint collect {A B} (xs : list A) (f : A → M B) : M (list B) :=
  match xs with
  | [] => mret []
  | x :: xs' => y ← f x; ys ← collect xs' f; mret (y :: ys)
  end.

(** [try: body finally: fin] *)
Definition finally {A} (body : M A) (fin : M unit) : M A := λ w,
  match body w with
  | (r, w') =>
      match fin w' with
      | (Ok _, w'') => (r, w'')
      | (Raise e, w'') => (Raise e, w'')
      end
  end.

Definition log (e : event) : M unit := modify (λ w, set_trace (trace w ++ [e]) w).

(** Object creation: the new object gets the next free reference. *)
Definition alloc (o : obj) : M ref := λ w,
  (Ok (length (heap w)), set_heap (heap w ++ [o]) w).

Definition deref (r : ref) : M obj := λ w,
  match heap w !! r with
  | Some o => (Ok o, w)
  | None => (Raise InvalidReference, w)
  end.

Definition store (r : ref) (o : obj) : M unit :=
  modify (λ w, set_heap (<[r:=o]> (heap w)) w).

(** ** The connection *)

(** Modelled from the spec: the execution interface the program consumes
    (a SQLAlchemy connection over SQLite) is not part of the source.  A
    batched statement runs once per parameter set, in order; with an
    empty list of parameter sets it is executed without parameters and
    fails, as its bind parameters have no value; a join scans [messages]
    in the order of the primary key; [commit] makes the transaction
    durable; a connection that is closed loses what it did not commit.
    Identities are integers as Python has them: the range of the column
    type is not modelled. *)
Definition apply_update (stmt : statement) (p : string * Z) (db : database) : database :=
  match stmt with
  | UpdateUsersName =>
      mkDatabase (alter (λ _, p.1) p.2 (users db)) (messages db)
  | UpdateMessagesBody =>
      mkDatabase (users db)
        ((λ m, if decide (msg_id m = p.2)
               then mkMessageRow (msg_id m) p.1 (msg_user_id m) else m)
           <$> messages db)
  end.

(** Modelled from the spec: one statement template executed with a list
    of parameter sets ("executemany"). *)
Definition executemany (stmt : statement) (params : list (string * Z))
    (db : database) : database :=
  foldl (λ d p, apply_update stmt p d) db params.

(** [connection.execute(stmt, params)] for the two UPDATE templates: an
    empty [params] raises the [StatementError] of a bind parameter
    without value. *)
Definition Connection_execute (stmt : statement) (params : list (string * Z)) : M unit :=
  match params with
  | [] => raise StatementError
  | _ :: _ => modify (λ w, set_txn (executemany stmt params (txn w)) w)
  end.

(** [connection.commit()] *)
Definition Connection_commit : M unit :=
  log ConnectionCommit ;; modify (λ w, set_durable (txn w) w).

(** Opening a connection shows the committed store; closing it rolls back
    what was not committed. *)
Definition Connection_connect : M unit := modify (λ w, set_txn (durable w) w).

Definition Connection_close : M unit := modify (λ w, set_txn (durable w) w).

(** [with engine.connect() as connection: body] *)
Definition with_connection {A} (body : M A) : M A :=
  Connection_connect ;; finally body Connection_close.

(** select users.id, users.name, messages.id, messages.body
    from users join messages on users.id = messages.user_id
    where users.id = :user_id *)
Definition join_rows (user_id : Z) (db : database) : list Row :=
  match users db !! user_id with
  | Some name =>
      (λ m, mkRow user_id name (msg_id m) (msg_body m))
        <$> filter (λ m, msg_user_id m = Some user_id) (messages db)
  | None => []
  end.

(** [connection.execute(stmt)] for the joined query of [with_id]. *)
Definition select_join (user_id : Z) : M (list Row) :=
  gets (λ w, join_rows user_id (txn w)).

(** [select(message_table).where(message_table.c.id == id)] *)
Definition select_message (id : Z) : M (list MessageRow) :=
  gets (λ w, filter (λ m, msg_id m = id) (messages (txn w))).

(** [select(user_table).where(user_table.c.id == id)] *)
Definition select_user (id : Z) : M (list (Z * string)) :=
  gets (λ w, match users (txn w) !! id with
             | Some name => [(id, name)]
             | None => []
             end).

(** [result.one()] *)
Definition one {A} (rows : list A) : M A :=
  match rows with
  | [] => raise NoResultFound
  | [r] => mret r
  | _ => raise MultipleResultsFound
  end.

(** The seeding inserts; a primary key can be used once. *)
Definition insert_user (u : Z * string) : M unit := λ w,
  match users (txn w) !! u.1 with
  | Some _ => (Raise IntegrityError, w)
  | None =>
      (Ok tt, set_txn (mkDatabase (<[u.1:=u.2]> (users (txn w))) (messages (txn w))) w)
  end.

(** The place of a new row among rows kept in the order of their
    identities. *)
Fixpoint insert_row (m : MessageRow) (rows : list MessageRow) : list MessageRow :=
  match rows with
  | [] => [m]
  | m' :: rows' =>
      if decide (msg_id m < msg_id m')%Z then m :: m' :: rows'
      else m' :: insert_row m rows'
  end.

Definition insert_message (m : MessageRow) : M unit := λ w,
  if decide (Exists (λ m', msg_id m' = msg_id m) (messages (txn w)))
  then (Raise IntegrityError, w)
  else (Ok tt, set_txn (mkDatabase (users (txn w)) (insert_row m (messages (txn w)))) w).

(** ** class Message *)

Definition Message_message_id (self : ref) : M Z :=
  o ← deref self;
  match o with
  | OMessage m => mret (_message_id m)
  | OUser _ => raise (AttributeError "message_id")
  end.

Definition Message_body (self : ref) : M string :=
  o ← deref self;
  match o with
  | OMessage m => mret (_body m)
  | OUser _ => raise (AttributeError "body")
  end.

Definition Message_edit (self : ref) (body : string) : M unit :=
  o ← deref self;
  match o with
  | OMessage m => store self (OMessage (mkMessage (_message_id m) body))
  | OUser _ => raise (AttributeError "edit")
  end.

(** ** class Registry *)

Definition Registry_register_mapper (mapper_type : mapper_type) (mapper : value) : M unit :=
  modify (λ w, set_mappers (<[mapper_type:=mapper]> (mappers w)) w).

Definition Registry_get (mapper_type : mapper_type) : M value :=
  mapper ← gets (λ w, default VNone (mappers w !! mapper_type));
  if negb (truthy mapper) then raise (PyException "Mapper not found")
  else mret mapper.

(** ** class UnitOfWork: registration *)

(** [d.setdefault(mapper, []).append(entity)] *)
Definition setdefault_append (mapper : mapper_type) (entity : ref)
    (d : dict (list ref)) : dict (list ref) :=
  dict_alter (λ l, l ++ [entity]) mapper (dict_setdefault mapper [] d).

Definition UnitOfWork_register_new (mapper : mapper_type) (entity : ref) : M unit :=
  modify (λ w, set_new (setdefault_append mapper entity (new w)) w).

Definition UnitOfWork_register_dirty (mapper : mapper_type) (entity : ref) : M unit :=
  modify (λ w, set_dirty (setdefault_append mapper entity (dirty w)) w).

(** ** class MessageProxy *)

Definition MessageProxy_message_id (self : MessageProxy_t) : M Z :=
  Message_message_id (_message self).

Definition MessageProxy_body (self : MessageProxy_t) : M string :=
  Message_body (_message self).

Definition MessageProxy_edit (self : MessageProxy_t) (body : string) : M unit :=
  UnitOfWork_register_dirty KMessageMapper (_message self) ;;
  Message_edit (_message self) body.

(** ** class User *)

(** Attribute access on an element of [_messages] is resolved on the class
    of the object found there, as Python does. *)
Definition message_id_of (message : handle) : M Z :=
  match message with
  | RawMessage r => Message_message_id r
  | Proxied p => MessageProxy_message_id p
  end.

Definition edit_of (message : handle) (body : string) : M unit :=
  match message with
  | RawMessage r => Message_edit r body
  | Proxied p => MessageProxy_edit p body
  end.

Definition User_user_id (self : ref) : M Z :=
  o ← deref self;
  match o with
  | OUser u => mret (_user_id u)
  | OMessage _ => raise (AttributeError "user_id")
  end.

Definition User_name (self : ref) : M string :=
  o ← deref self;
  match o with
  | OUser u => mret (_name u)
  | OMessage _ => raise (AttributeError "name")
  end.

Definition User_rename (self : ref) (new_name : string) : M unit :=
  o ← deref self;
  match o with
  | OUser u => store self (OUser (mkUser (_user_id u) new_name (_messages u)))
  | OMessage _ => raise (AttributeError "rename")
  end.

Definition User_edit_message (self : ref) (message_id : Z) (body : string) : M unit :=
  o ← deref self;
  match o with
  | OUser u =>
      for_each (_messages u) (λ message,
        mid ← message_id_of message;
        if decide (mid = message_id) then edit_of message body else mret tt)
  | OMessage _ => raise (AttributeError "edit_message")
  end.

(** ** class UserMapper and class MessageMapper *)

Definition UserMapper_update_all (users : list ref) : M unit :=
  log (MapperCall UserMapperObj m_update_all users) ;;
  params ← collect users (λ user,
    name ← User_name user; user_id ← User_user_id user; mret (name, user_id));
  Connection_execute UpdateUsersName params.

Definition UserMapper_add (user : ref) : M unit :=
  log (MapperCall UserMapperObj m_add [user]).

Definition UserMapper_add_all (users : list ref) : M unit :=
  log (MapperCall UserMapperObj m_add_all users).

Definition UserMapper_delete (user : ref) : M unit :=
  log (MapperCall UserMapperObj m_delete [user]).

(** [update]: the row with the identity of the message gets that identity
    and the body of the message. *)
Definition MessageMapper_update (message : ref) : M unit :=
  log (MapperCall MessageMapperObj m_update [message]) ;;
  message_id ← Message_message_id message;
  body ← Message_body message;
  Connection_execute UpdateMessagesBody [(body, message_id)].

Definition MessageMapper_update_all (messages : list ref) : M unit :=
  log (MapperCall MessageMapperObj m_update_all messages) ;;
  params ← collect messages (λ message,
    body ← Message_body message; message_id ← Message_message_id message;
    mret (body, message_id));
  Connection_execute UpdateMessagesBody params.

Definition MessageMapper_add (message : ref) : M unit :=
  log (MapperCall MessageMapperObj m_add [message]).

Definition MessageMapper_add_all (messages : list ref) : M unit :=
  log (MapperCall MessageMapperObj m_add_all messages).

Definition MessageMapper_delete (message : ref) : M unit :=
  log (MapperCall MessageMapperObj m_delete [message]).

(** [mapper.update_all(data)] on whatever the registry returned. *)
Definition update_all (mapper : value) (data : list ref) : M unit :=
  match mapper with
  | VMapper UserMapperObj => UserMapper_update_all data
  | VMapper MessageMapperObj => MessageMapper_update_all data
  | _ => raise (AttributeError "update_all")
  end.

(** ** class UnitOfWork: commit *)

Definition flush (item : mapper_type * list ref) : M unit :=
  mapper ← Registry_get item.1;
  update_all mapper item.2.

Definition UnitOfWork_commit : M unit :=
  items ← gets dirty;
  for_each items flush ;;
  Connection_commit.

(** ** class UserProxy *)

Definition UserProxy_user_id (self : UserProxy_t) : M Z :=
  User_user_id (_user self).

Definition UserProxy_name (self : UserProxy_t) : M string :=
  User_name (_user self).

Definition UserProxy_rename (self : UserProxy_t) (new_name : string) : M unit :=
  UnitOfWork_register_dirty KUserMapper (_user self) ;;
  User_rename (_user self) new_name.

Definition UserProxy_edit_message (self : UserProxy_t) (message_id : Z)
    (body : string) : M unit :=
  User_edit_message (_user self) message_id body.

(** ** class UserRepository *)

Definition new_message_proxy (row : Row) : M handle :=
  message ← alloc (OMessage (mkMessage (row_message_id row) (row_message_body row)));
  mret (Proxied (mkMessageProxy message)).

(** [_load]: after the loop the variable [row] is the last row iterated,
    and is unbound when the result was empty.  The user proxy is given
    the module-level [unit_of_work], which the script binds to the unit of
    work of the repository. *)
Definition UserRepository_load (result : list Row) : M UserProxy_t :=
  proxy_messages ← collect result new_message_proxy;
  match last result with
  | None => raise (UnboundLocalError "row")
  | Some row =>
      user ← alloc (OUser (mkUser (row_user_id row) (row_user_name row) proxy_messages));
      mret (mkUserProxy user)
  end.

Definition UserRepository_with_id (user_id : Z) : M UserProxy_t :=
  result ← select_join user_id;
  UserRepository_load result.

(** ** class Interactor and the script *)

(** [execute] reaches the repository and the unit of work through the
    module-level names, which the script binds to the objects the
    interactor was built with. *)
Definition Interactor_execute : M unit :=
  user ← UserRepository_with_id 1;
  UserProxy_edit_message user 1 "new message body 1" ;;
  UserProxy_edit_message user 2 "new message body 2" ;;
  UserProxy_rename user "new username" ;;
  UnitOfWork_commit.

Definition print (s : string) : M unit :=
  modify (λ w, set_stdout (stdout w ++ [s]) w).

Definition empty_database : database := mkDatabase ∅ [].

(** The state after [metadata_obj.create_all(engine)]: two empty tables,
    no object, no mapper registered. *)
Definition initial_world : world :=
  mkWorld [] ∅ [] [] empty_database empty_database [] [].

Definition seed : M unit :=
  with_connection (
    for_each [(1%Z, "bob"); (2%Z, "sam"); (3%Z, "von")] insert_user ;;
    for_each [mkMessageRow 1 "body 1" (Some 1%Z);
              mkMessageRow 2 "body 2" (Some 1%Z);
              mkMessageRow 3 "body 3" (Some 1%Z);
              mkMessageRow 4 "body 4" (Some 2%Z)] insert_message ;;
    Connection_commit).

Definition use_case : M unit :=
  with_connection (
    Registry_register_mapper KMessageMapper (VMapper MessageMapperObj) ;;
    Registry_register_mapper KUserMapper (VMapper UserMapperObj) ;;
    Interactor_execute ;;
    message_1 ← (select_message 1 ≫= one);
    message_2 ← (select_message 2 ≫= one);
    print (msg_body message_1) ;;
    print (msg_body message_2) ;;
    user_1 ← (select_user 1 ≫= one);
    print user_1.2).

Definition script : M unit := seed ;; use_case.

(** The world once the seeding block has run. *)
Definition seeded_world : world := (seed initial_world).2.


(** ** Vocabulary of the statements *)

(** A sequence of [register_mapper] calls, as the wiring code makes them. *)
Definition register_all (regs : list (mapper_type * value)) : M unit :=
  for_each regs (λ reg, Registry_register_mapper reg.1 reg.2).

(** The same registration repeated once per element of [es]. *)
Definition register_dirty_all (mapper : mapper_type) (es : list ref) : M unit :=
  for_each es (UnitOfWork_register_dirty mapper).

Definition register_new_all (mapper : mapper_type) (es : list ref) : M unit :=
  for_each es (UnitOfWork_register_new mapper).

Definition is_user (h : list obj) (r : ref) : bool :=
  match h !! r with Some (OUser _) => true | _ => false end.

Definition is_message (h : list obj) (r : ref) : bool :=
  match h !! r with Some (OMessage _) => true | _ => false end.

(** The object at [r] is a message whose identity is [mid]. *)
Definition has_id (h : list obj) (mid : Z) (r : ref) : bool :=
  match h !! r with
  | Some (OMessage m) => bool_decide (_message_id m = mid)
  | _ => false
  end.

(** The raw message an element of [_messages] stands for. *)
Definition handle_ref (message : handle) : ref :=
  match message with
  | RawMessage r => r
  | Proxied p => _message p
  end.

Definition is_proxied (message : handle) : bool :=
  match message with
  | RawMessage _ => false
  | Proxied _ => true
  end.

(** The list has an element. *)
Definition nonempty {A} (l : list A) : bool :=
  match l with
  | [] => false
  | _ :: _ => true
  end.

(** The mapper registered for the kind of [item] is a mapper instance and
    the batch is one that registration can have built for it: not empty,
    and every entity an object of the class the mapper updates. *)
Definition well_typed_batch (w : world) (item : mapper_type * list ref) : bool :=
  match mappers w !! item.1 with
  | Some (VMapper UserMapperObj) =>
      nonempty item.2 && forallb (is_user (heap w)) item.2
  | Some (VMapper MessageMapperObj) =>
      nonempty item.2 && forallb (is_message (heap w)) item.2
  | _ => false
  end.

(** The [update_all] call that flushing [item] makes. *)
Definition dispatched (w : world) (item : mapper_type * list ref) : option event :=
  match mappers w !! item.1 with
  | Some (VMapper m) => Some (MapperCall m m_update_all item.2)
  | _ => None
  end.

(** A computation leaves the component [f] of the world as it found it. *)
Definition preserves {A B} (f : world → B) (m : M A) : Prop :=
  ∀ w, f (m w).2 = f w.

(** Two worlds with the same objects, registry and dirty map. *)
Definition agree (w1 w2 : world) : Prop :=
  heap w1 = heap w2 ∧ mappers w1 = mappers w2 ∧ dirty w1 = dirty w2.

(** A computation whose outcome and calls are determined by the objects,
    the registry and the dirty map alone, whose calls all satisfy [P], and
    whose effect on the store is determined by these and the store. *)
Definition uniform (P : event → bool) {A} (m : M A) : Prop :=
  ∀ w1 w2, agree w1 w2 →
    (m w1).1 = (m w2).1 ∧ agree (m w1).2 (m w2).2 ∧
    (∃ tr, trace (m w1).2 = trace w1 ++ tr ∧ trace (m w2).2 = trace w2 ++ tr
           ∧ forallb P tr = true) ∧
    (txn w1 = txn w2 → txn (m w1).2 = txn (m w2).2) ∧
    (txn w1 = txn w2 → durable w1 = durable w2 →
     durable (m w1).2 = durable (m w2).2).

Definition is_update_all_or_commit (e : event) : bool :=
  match e with
  | MapperCall _ m_update_all _ => true
  | MapperCall _ _ _ => false
  | ConnectionCommit => true
  end.

Definition is_update_all (e : event) : bool :=
  match e with
  | MapperCall _ m_update_all _ => true
  | _ => false
  end.

(** What the end of a [commit] adds to the trace: the connection is
    committed when, and only when, [commit] returns. *)
Definition committed (r : result unit) : list event :=
  match r with
  | Ok _ => [ConnectionCommit]
  | Raise _ => []
  end.

(** The parameter sets the two [update_all] build from a batch. *)
Definition user_params (h : list obj) (users : list ref) : list (string * Z) :=
  omap (λ r, match h !! r with
             | Some (OUser u) => Some (_name u, _user_id u)
             | _ => None
             end) users.

Definition message_params (h : list obj) (messages : list ref) : list (string * Z) :=
  omap (λ r, match h !! r with
             | Some (OMessage m) => Some (_body m, _message_id m)
             | _ => None
             end) messages.

(** What flushing [item] does to the store. *)
Definition batch_update (w : world) (item : mapper_type * list ref)
    (db : database) : database :=
  match mappers w !! item.1 with
  | Some (VMapper UserMapperObj) =>
      executemany UpdateUsersName (user_params (heap w) item.2) db
  | Some (VMapper MessageMapperObj) =>
      executemany UpdateMessagesBody (message_params (heap w) item.2) db
  | _ => db
  end.

(** A world in which a user was registered dirty but only the message
    mapper was registered. *)
Definition world_without_user_mapper : world :=
  mkWorld [OMessage (mkMessage 1 "body 1"); OUser (mkUser 1 "bob" [RawMessage 0%nat])]
          {[KMessageMapper := VMapper MessageMapperObj]}
          []
          [(KMessageMapper, [0%nat]); (KUserMapper, [1%nat])]
          (mkDatabase {[1%Z := "bob"]} [mkMessageRow 1 "old body" (Some 1%Z)])
          (mkDatabase {[1%Z := "bob"]} [mkMessageRow 1 "old body" (Some 1%Z)])
          [] [].

(** The message object built from a row, and the proxies of the messages
    created at references [start], [start + 1], ... *)
Definition message_of_row (row : Row) : obj :=
  OMessage (mkMessage (row_message_id row) (row_message_body row)).

Definition proxies_from (start n : nat) : list handle :=
  (λ r, Proxied (mkMessageProxy r)) <$> seq start n.

(** The references [edit_message] registers dirty: the messages with
    identity [mid] that are reached through a proxy, once per element. *)
Fixpoint dirtied (h : list obj) (mid : Z) (hs : list handle) : list ref :=
  match hs with
  | [] => []
  | x :: hs' =>
      if is_proxied x && has_id h mid (handle_ref x)
      then handle_ref x :: dirtied h mid hs'
      else dirtied h mid hs'
  end.

(** The loop body of [User.edit_message]. *)
Definition edit_if_matches (message_id : Z) (body : string) (message : handle) : M unit :=
  mid ← message_id_of message;
  if decide (mid = message_id) then edit_of message body else mret tt.

(** ** Vocabulary of the further properties *)

(** The value the last parameter set for key [id] carries, if there is one. *)
Definition written (params : list (string * Z)) (id : Z) : option string :=
  fst <$> last (filter (λ p, p.2 = id) params).

(** A well-formed dictionary: keys pairwise distinct, no empty list. *)
Definition dict_wf (d : dict (list ref)) : Prop :=
  NoDup d.*1 ∧ Forall (λ item, item.2 ≠ []) d.

(** The first attribute each [update_all] reads from an entity. *)
Definition first_attr (m : mapper_instance) : string :=
  match m with
  | UserMapperObj => "name"
  | MessageMapperObj => "body"
  end.

(** The entities a mapper instance can flush. *)
Definition flushes (m : mapper_instance) (h : list obj) (r : ref) : bool :=
  match m with
  | UserMapperObj => is_user h r
  | MessageMapperObj => is_message h r
  end.

Definition is_commit (e : event) : bool :=
  match e with
  | ConnectionCommit => true
  | MapperCall _ _ _ => false
  end.

(** The same objects and store as [world_without_user_mapper], with both
    mappers registered as the script registers them. *)
Definition world_with_both_mappers : world :=
  set_mappers {[KMessageMapper := VMapper MessageMapperObj;
                KUserMapper := VMapper UserMapperObj]}
    world_without_user_mapper.

(** A unit of work that has registered nothing yet, over the same objects
    and store. *)
Definition fresh_world : world := set_dirty [] world_with_both_mappers.

(** A loaded aggregate in the object store: the user at [uref] holds the
    proxies of the messages at references [s], ..., [s + n - 1]. *)
Definition aggregate_at (h : list obj) (uref s n : nat) (u : User_t) : Prop :=
  h !! uref = Some (OUser u)
  ∧ _messages u = proxies_from s n
  ∧ Forall (λ r, is_message h r = true) (seq s n).

(** The body of [Interactor.execute] after the load. *)
Definition edit_edit_rename_commit (user : UserProxy_t)
    (mid1 : Z) (b1 : string) (mid2 : Z) (b2 : string) (name : string) : M unit :=
  UserProxy_edit_message user mid1 b1 ;;
  UserProxy_edit_message user mid2 b2 ;;
  UserProxy_rename user name ;;
  UnitOfWork_commit.

(** The seeded world once the script has registered its two mappers. *)
Definition wired_world : world :=
  ((Registry_register_mapper KMessageMapper (VMapper MessageMapperObj) ;;
    Registry_register_mapper KUserMapper (VMapper UserMapperObj)) seeded_world).2.

(** The parameter sets a flush of all of [items] sends to each table. *)
Definition all_message_params (w : world) (items : dict (list ref)) : list (string * Z) :=
  items ≫= (λ item,
    match mappers w !! item.1 with
    | Some (VMapper MessageMapperObj) => message_params (heap w) item.2
    | _ => []
    end).

Definition all_user_params (w : world) (items : dict (list ref)) : list (string * Z) :=
  items ≫= (λ item,
    match mappers w !! item.1 with
    | Some (VMapper UserMapperObj) => user_params (heap w) item.2
    | _ => []
    end).
(** * Properties *)

(** ** Running the monad *)

Lemma run_bind {A B} (m : M A) (f : A → M B) (w : world) :
  (m ≫= f) w =
  match m w with
  | (Ok a, w') => f a w'
  | (Raise e, w') => (Raise e, w')
  end.
Proof. reflexivity. Qed.

Lemma run_ret {A} (a : A) (w : world) : (mret a : M A) w = (Ok a, w).
Proof. reflexivity. Qed.

Lemma run_bind_ok {A B} (m : M A) (f : A → M B) w a w' :
  m w = (Ok a, w') → (m ≫= f) w = f a w'.
Proof. intros H. by rewrite run_bind, H. Qed.

Lemma run_bind_raise {A B} (m : M A) (f : A → M B) w e w' :
  m w = (Raise e, w') → (m ≫= f) w = (Raise e, w').
Proof. intros H. by rewrite run_bind, H. Qed.

Lemma world_eta w :
  mkWorld (heap w) (mappers w) (new w) (dirty w) (txn w) (durable w)
          (trace w) (stdout w) = w.
Proof. by destruct w. Qed.

(** ** Dictionaries *)

Section dict.
Context {V : Type}.
Implicit Types (d : dict V) (k : mapper_type).

Lemma dict_get_setdefault k v d :
  dict_get k (dict_setdefault k v d) = Some (default v (dict_get k d)).
Proof.
  induction d as [|[k' v'] d IH]; simpl.
  - by rewrite decide_True.
  - destruct (decide (k' = k)) as [->|Hne]; simpl.
    + by rewrite decide_True.
    + by rewrite decide_False.
Qed.

Lemma dict_get_setdefault_ne k k' v d :
  k' ≠ k → dict_get k' (dict_setdefault k v d) = dict_get k' d.
Proof.
  intros Hne. induction d as [|[k0 v0] d IH]; simpl.
  - by rewrite decide_False.
  - destruct (decide (k0 = k)) as [->|Hne0]; simpl; [done|].
    by rewrite IH.
Qed.

Lemma dict_get_alter f k d :
  dict_get k (dict_alter f k d) = f <$> dict_get k d.
Proof.
  induction d as [|[k' v'] d IH]; simpl; [done|].
  destruct (decide (k' = k)) as [->|Hne]; simpl.
  - by rewrite decide_True.
  - by rewrite decide_False.
Qed.

Lemma dict_get_alter_ne f k k' d :
  k' ≠ k → dict_get k' (dict_alter f k d) = dict_get k' d.
Proof.
  intros Hne. induction d as [|[k0 v0] d IH]; simpl; [done|].
  destruct (decide (k0 = k)) as [->|Hne0]; simpl.
  - by rewrite !decide_False.
  - by rewrite IH.
Qed.

Lemma dict_get_None_notin k d : dict_get k d = None ↔ k ∉ d.*1.
Proof.
  induction d as [|[k' v'] d IH]; simpl.
  - split; [intros _; apply not_elem_of_nil | done].
  - rewrite not_elem_of_cons. destruct (decide (k' = k)) as [->|Hne].
    + split; [done | by intros [? _]].
    + rewrite IH. split; [by intros ?; split | by intros [_ ?]].
Qed.
End dict.

Lemma setdefault_append_get k e d :
  dict_get k (setdefault_append k e d) = Some (default [] (dict_get k d) ++ [e]).
Proof.
  unfold setdefault_append. by rewrite dict_get_alter, dict_get_setdefault.
Qed.

Lemma setdefault_append_get_ne k k' e d :
  k' ≠ k → dict_get k' (setdefault_append k e d) = dict_get k' d.
Proof.
  intros. unfold setdefault_append.
  by rewrite dict_get_alter_ne, dict_get_setdefault_ne.
Qed.

(** A kind registered for the first time goes to the end of the
    iteration order; a known kind keeps its place. *)
Lemma setdefault_append_absent k e d :
  dict_get k d = None → setdefault_append k e d = d ++ [(k, [e])].
Proof.
  unfold setdefault_append. induction d as [|[k' v'] d IH]; simpl.
  - intros _. by rewrite decide_True.
  - destruct (decide (k' = k)) as [->|Hne]; [done|]. simpl.
    rewrite decide_False by done. intros H. by rewrite IH.
Qed.

Lemma setdefault_append_keys k e d :
  is_Some (dict_get k d) → (setdefault_append k e d).*1 = d.*1.
Proof.
  unfold setdefault_append. induction d as [|[k' v'] d IH]; simpl.
  - by intros [? ?].
  - destruct (decide (k' = k)) as [->|Hne]; simpl.
    + by rewrite decide_True.
    + rewrite decide_False by done. intros H. csimpl. f_equal. by apply IH.
Qed.

Lemma foldl_setdefault_append_get k (es : list ref) d :
  default [] (dict_get k (foldl (λ d e, setdefault_append k e d) d es))
  = default [] (dict_get k d) ++ es.
Proof.
  revert d. induction es as [|e es IH]; intros d; simpl.
  - by rewrite app_nil_r.
  - rewrite IH, setdefault_append_get. simpl. by rewrite <- app_assoc.
Qed.

Lemma foldl_setdefault_append_get_ne k k' (es : list ref) d :
  k' ≠ k →
  dict_get k' (foldl (λ d e, setdefault_append k e d) d es) = dict_get k' d.
Proof.
  intros Hne. revert d. induction es as [|e es IH]; intros d; simpl; [done|].
  by rewrite IH, setdefault_append_get_ne.
Qed.

(** ** Registration in the Unit of Work *)

Lemma register_dirty_all_run k es w :
  register_dirty_all k es w =
  (Ok tt, set_dirty (foldl (λ d e, setdefault_append k e d) (dirty w) es) w).
Proof.
  revert w. induction es as [|e es IH]; intros w; simpl.
  - unfold set_dirty. by rewrite world_eta.
  - unfold register_dirty_all in *. simpl. rewrite run_bind. simpl.
    by rewrite IH.
Qed.

Lemma register_new_all_run k es w :
  register_new_all k es w =
  (Ok tt, set_new (foldl (λ d e, setdefault_append k e d) (new w) es) w).
Proof.
  revert w. induction es as [|e es IH]; intros w; simpl.
  - unfold set_new. by rewrite world_eta.
  - unfold register_new_all in *. simpl. rewrite run_bind. simpl.
    by rewrite IH.
Qed.

(** Registration never leaves an empty list behind, so no batch that
    [commit] flushes is empty. *)
Lemma setdefault_append_nonempty k e (d : dict (list ref)) :
  Forall (λ item, item.2 ≠ []) d →
  Forall (λ item, item.2 ≠ []) (setdefault_append k e d).
Proof.
  unfold setdefault_append. induction 1 as [|[k' l] d Hl Hd IH]; simpl.
  - rewrite decide_True by done. repeat constructor. simpl. by intros [=].
  - destruct (decide (k' = k)) as [->|Hne]; simpl.
    + rewrite decide_True by done. constructor; [|done].
      simpl. by intros []%app_eq_nil.
    + rewrite decide_False by done. by constructor.
Qed.

(** C6: [register_new] and [register_dirty] append the entity at the end
    of the list of its kind, creating the list (at the end of the map)
    when the kind is absent, leave every other kind alone, and never
    deduplicate: registering the entity [n] times adds [n] occurrences of
    it, in registration order, after what the list held. *)
Theorem C6_register_appends (w : world) (k : mapper_type) (e : ref) (n : nat) :
  (* register_dirty *)
  (UnitOfWork_register_dirty k e w).1 = Ok tt
  ∧ dict_get k (dirty (UnitOfWork_register_dirty k e w).2)
    = Some (default [] (dict_get k (dirty w)) ++ [e])
  ∧ (∀ k', k' ≠ k →
       dict_get k' (dirty (UnitOfWork_register_dirty k e w).2)
       = dict_get k' (dirty w))
  ∧ default [] (dict_get k (dirty (register_dirty_all k (replicate n e) w).2))
    = default [] (dict_get k (dirty w)) ++ replicate n e
  (* register_new *)
  ∧ (UnitOfWork_register_new k e w).1 = Ok tt
  ∧ dict_get k (new (UnitOfWork_register_new k e w).2)
    = Some (default [] (dict_get k (new w)) ++ [e])
  ∧ (∀ k', k' ≠ k →
       dict_get k' (new (UnitOfWork_register_new k e w).2)
       = dict_get k' (new w))
  ∧ default [] (dict_get k (new (register_new_all k (replicate n e) w).2))
    = default [] (dict_get k (new w)) ++ replicate n e.
Proof.
  rewrite register_dirty_all_run, register_new_all_run. simpl.
  rewrite !setdefault_append_get, !foldl_setdefault_append_get.
  repeat split; auto using setdefault_append_get_ne.
Qed.

Lemma foldl_setdefault_append_single k (l es : list ref) :
  foldl (λ d e, setdefault_append k e d) [(k, l)] es = [(k, l ++ es)].
Proof.
  revert l. induction es as [|e es IH]; intros l; simpl.
  - by rewrite app_nil_r.
  - unfold setdefault_append at 2. simpl. rewrite decide_True by done.
    simpl. rewrite decide_True by done. by rewrite IH, <- app_assoc.
Qed.

(** From an empty Unit of Work, [n] registrations of one entity give a
    list of exactly [n] occurrences of it. *)
Lemma register_dirty_n_times k e n w :
  dirty w = [] →
  dirty (register_dirty_all k (replicate (S n) e) w).2
  = [(k, replicate (S n) e)].
Proof.
  intros Hd. rewrite register_dirty_all_run. simpl. rewrite Hd.
  unfold setdefault_append at 2. simpl. rewrite decide_True by done.
  by rewrite foldl_setdefault_append_single.
Qed.

(** ** The registry *)

Lemma Registry_get_run k w :
  Registry_get k w =
  if truthy (default VNone (mappers w !! k))
  then (Ok (default VNone (mappers w !! k)), w)
  else (Raise (PyException "Mapper not found"), w).
Proof.
  unfold Registry_get. rewrite run_bind. simpl.
  by destruct (truthy _).
Qed.

Lemma register_all_run regs w :
  register_all regs w =
  (Ok tt, set_mappers (foldl (λ r reg, <[reg.1:=reg.2]> r) (mappers w) regs) w).
Proof.
  revert w. induction regs as [|reg regs IH]; intros w; simpl.
  - unfold set_mappers. by rewrite world_eta.
  - unfold register_all in *. simpl. rewrite run_bind. simpl.
    by rewrite IH.
Qed.

Lemma foldl_insert_notin (regs : list (mapper_type * value)) k
    (r : gmap mapper_type value) :
  k ∉ regs.*1 →
  foldl (λ r reg, <[reg.1:=reg.2]> r) r regs !! k = r !! k.
Proof.
  revert r. induction regs as [|[k' v] regs IH]; intros r; simpl; [done|].
  rewrite not_elem_of_cons. intros [Hne Hnotin].
  rewrite IH by done. by rewrite lookup_insert_ne.
Qed.

(** A truthy value registered last is what [get] returns. *)
Lemma Registry_get_after_register k v w :
  truthy v = true →
  (Registry_register_mapper k v ;; Registry_get k) w
  = (Ok v, set_mappers (<[k:=v]> (mappers w)) w).
Proof.
  intros Hv. rewrite run_bind. simpl. rewrite Registry_get_run. simpl.
  rewrite lookup_insert_eq. simpl. by rewrite Hv.
Qed.

(** C8: registration is last-write-wins, and a kind that was never
    registered makes [get] fail with the mapper-not-found exception. *)
Theorem C8_registry_last_write_wins
    (regs : list (mapper_type * value)) (k : mapper_type)
    (m1 : value) (m2 : mapper_instance) (w : world) :
  ((register_all regs ;;
    Registry_register_mapper k m1 ;;
    Registry_register_mapper k (VMapper m2) ;;
    Registry_get k) w).1 = Ok (VMapper m2)
  ∧ (mappers w = ∅ → k ∉ regs.*1 →
     (register_all regs ;; Registry_get k) w
     = (Raise (PyException "Mapper not found"), (register_all regs w).2)).
Proof.
  split.
  - rewrite run_bind, register_all_run. rewrite run_bind. simpl.
    by rewrite Registry_get_after_register.
  - intros Hempty Hnotin. rewrite run_bind, register_all_run. simpl.
    rewrite Registry_get_run. simpl.
    by rewrite foldl_insert_notin, Hempty, lookup_empty.
Qed.

Lemma C8_witness :
  (register_all [(KUserMapper, VMapper UserMapperObj)] ;;
   Registry_get KMessageMapper) initial_world
  = (Raise (PyException "Mapper not found"),
     (register_all [(KUserMapper, VMapper UserMapperObj)] initial_world).2).
Proof.
  apply (C8_registry_last_write_wins
           [(KUserMapper, VMapper UserMapperObj)] KMessageMapper
           VNone UserMapperObj initial_world).
  - reflexivity.
  - simpl. rewrite list_elem_of_singleton. discriminate.
Defined.

(** C10: [get] tests the stored value for truthiness.  A kind registered
    with a falsy value fails like an unregistered one, and a successful
    [get] returns the registered value, which is truthy. *)
Theorem C10_get_tests_truthiness (w : world) (k : mapper_type) (v : value) :
  mappers w !! k = Some v →
  (truthy v = false →
   Registry_get k w = (Raise (PyException "Mapper not found"), w))
  ∧ (∀ m w', Registry_get k w = (Ok m, w') →
       m = v ∧ truthy v = true ∧ w' = w).
Proof.
  intros Hk. rewrite Registry_get_run, Hk. simpl. split.
  - by intros ->.
  - intros m w'. destruct (truthy v); [|done]. by intros [= <- <-].
Qed.

Lemma C10_witness :
  Registry_get KUserMapper (set_mappers {[KUserMapper := VInt 0]} initial_world)
  = (Raise (PyException "Mapper not found"),
     set_mappers {[KUserMapper := VInt 0]} initial_world).
Proof.
  apply (C10_get_tests_truthiness
           (set_mappers {[KUserMapper := VInt 0]} initial_world)
           KUserMapper (VInt 0)).
  - reflexivity.
  - reflexivity.
Defined.

(** ** The order of the stored messages *)

Lemma insert_row_perm m rows : insert_row m rows ≡ₚ m :: rows.
Proof.
  induction rows as [|m' rows IH]; simpl; [done|].
  destruct (decide (msg_id m < msg_id m')%Z); [done|].
  by rewrite IH, Permutation_swap.
Qed.

(** An insert keeps the rows in the order of their identities, which is
    the order a scan returns them in. *)
Lemma insert_row_sorted m rows :
  StronglySorted (λ a b, (msg_id a ≤ msg_id b)%Z) rows →
  StronglySorted (λ a b, (msg_id a ≤ msg_id b)%Z) (insert_row m rows).
Proof.
  induction 1 as [|m' rows Hsorted IH Hall]; simpl.
  - by repeat constructor.
  - destruct (decide (msg_id m < msg_id m')%Z) as [Hlt|Hge].
    + constructor; [by constructor|].
      constructor; [lia|]. eapply Forall_impl; [exact Hall|].
      intros x Hx. simpl in Hx. lia.
    + constructor; [done|]. rewrite insert_row_perm.
      constructor; [lia|done].
Qed.

(** ** Loading an aggregate *)

Lemma select_join_run uid w :
  select_join uid w = (Ok (join_rows uid (txn w)), w).
Proof. reflexivity. Qed.

(** An empty result leaves the loop variable unbound: the load stops at
    [row.user_id] and nothing was created. *)
Lemma UserRepository_with_id_no_rows uid w :
  join_rows uid (txn w) = [] →
  UserRepository_with_id uid w = (Raise (UnboundLocalError "row"), w).
Proof.
  intros Hrows. unfold UserRepository_with_id.
  rewrite (run_bind_ok _ _ _ _ _ (select_join_run uid w)), Hrows.
  reflexivity.
Qed.

(** The join is empty exactly when the user is missing or owns no message. *)
Lemma join_rows_empty uid db :
  join_rows uid db = [] ↔
  users db !! uid = None
  ∨ Forall (λ m, msg_user_id m ≠ Some uid) (messages db).
Proof.
  unfold join_rows. destruct (users db !! uid) as [name|] eqn:Hu.
  - split.
    + intros Hnil%fmap_nil_inv. right. apply Forall_forall. intros m Hm Hid.
      by apply (filter_nil_not_elem_of _ _ m Hnil Hid).
    + intros [?|Hall]; [done|].
      induction (messages db) as [|m ms IH]; [done|].
      apply Forall_cons in Hall as [Hm Hms].
      rewrite filter_cons_False by done. by apply IH.
  - split; [by left | done].
Qed.

(** C2: user 3 ("von") exists and owns no message; loading it fails, but
    with the [UnboundLocalError] of the unbound loop variable [row]. *)
Theorem C2_with_id_zero_rows :
  join_rows 3 (txn seeded_world) = []
  ∧ UserRepository_with_id 3 seeded_world
    = (Raise (UnboundLocalError "row"), seeded_world).
Proof. split; [by vm_compute|]. by apply UserRepository_with_id_no_rows. Qed.

(** ** The script *)

(** C4: the script loads user 1, edits messages 1 and 2 and renames the
    user through the proxy, commits, and prints what storage then holds:
    the two new bodies and the new name. *)
Theorem C4_end_to_end :
  (script initial_world).1 = Ok tt
  ∧ stdout (script initial_world).2
    = ["new message body 1"; "new message body 2"; "new username"]
  ∧ msg_body <$> filter (λ m, msg_id m = 1%Z) (messages (durable (script initial_world).2))
    = ["new message body 1"]
  ∧ msg_body <$> filter (λ m, msg_id m = 2%Z) (messages (durable (script initial_world).2))
    = ["new message body 2"]
  ∧ users (durable (script initial_world).2) !! 1%Z = Some "new username"
  ∧ dirty (Interactor_execute
             ((Registry_register_mapper KMessageMapper (VMapper MessageMapperObj) ;;
               Registry_register_mapper KUserMapper (VMapper UserMapperObj))
                seeded_world).2).2
    = [(KMessageMapper, [0; 1]); (KUserMapper, [3])]%nat.
Proof. by vm_compute. Qed.

(** ** Frame rules: what a computation leaves alone *)

Section preserves.
Context {B : Type} (f : world → B).

Lemma preserves_ret {A} (a : A) : preserves f (mret a).
Proof. by intros w. Qed.

Lemma preserves_raise {A} e : preserves f (@raise A e).
Proof. by intros w. Qed.

Lemma preserves_gets {A} (g : world → A) : preserves f (gets g).
Proof. by intros w. Qed.

Lemma preserves_deref r : preserves f (deref r).
Proof. intros w. unfold deref. by destruct (heap w !! r). Qed.

Lemma preserves_modify g : (∀ w, f (g w) = f w) → preserves f (modify g).
Proof. intros Hg w. apply Hg. Qed.

Lemma preserves_bind {A C} (m : M A) (k : A → M C) :
  preserves f m → (∀ a, preserves f (k a)) → preserves f (m ≫= k).
Proof.
  intros Hm Hk w. rewrite run_bind. specialize (Hm w).
  destruct (m w) as [[a|e] w']; simpl in *; [|done].
  by rewrite Hk.
Qed.

Lemma preserves_for_each {A} (xs : list A) body :
  (∀ x, preserves f (body x)) → preserves f (for_each xs body).
Proof.
  intros Hbody. induction xs as [|x xs IH]; simpl.
  - apply preserves_ret.
  - apply preserves_bind; auto.
Qed.

Lemma preserves_collect {A C} (xs : list A) (g : A → M C) :
  (∀ x, preserves f (g x)) → preserves f (collect xs g).
Proof.
  intros Hg. induction xs as [|x xs IH]; simpl.
  - apply preserves_ret.
  - apply preserves_bind; [auto|]. intros y.
    apply preserves_bind; [auto|]. intros ys. apply preserves_ret.
Qed.
End preserves.

Ltac frame :=
  repeat first
    [ apply preserves_ret | apply preserves_raise | apply preserves_gets
    | apply preserves_deref
    | apply preserves_for_each; intros ?
    | apply preserves_collect; intros ?
    | apply preserves_bind; [|intros ?]
    | apply preserves_modify; intros ?; done
    | match goal with
      | |- preserves _ (match ?x with _ => _ end) => destruct x
      | |- preserves _ (if ?x then _ else _) => destruct x
      end ].

(** Flushing and committing write the store and the trace, nothing else. *)
Section commit_frame.
Context {B : Type} (f : world → B).
Hypothesis f_txn : ∀ w t, f (set_txn t w) = f w.
Hypothesis f_trace : ∀ w t, f (set_trace t w) = f w.

Lemma User_name_preserves r : preserves f (User_name r).
Proof. unfold User_name. frame. Qed.

Lemma User_user_id_preserves r : preserves f (User_user_id r).
Proof. unfold User_user_id. frame. Qed.

Lemma Message_body_preserves r : preserves f (Message_body r).
Proof. unfold Message_body. frame. Qed.

Lemma Message_message_id_preserves r : preserves f (Message_message_id r).
Proof. unfold Message_message_id. frame. Qed.

Lemma log_preserves e : preserves f (log e).
Proof. intros w. apply f_trace. Qed.

Lemma Connection_execute_preserves stmt params :
  preserves f (Connection_execute stmt params).
Proof. intros w. destruct params; [done|]. apply f_txn. Qed.

Lemma update_all_preserves mapper data : preserves f (update_all mapper data).
Proof.
  unfold update_all, UserMapper_update_all, MessageMapper_update_all.
  destruct mapper as [| | | |[]]; frame;
    auto using log_preserves, Connection_execute_preserves,
      User_name_preserves, User_user_id_preserves,
      Message_body_preserves, Message_message_id_preserves.
Qed.

Lemma Registry_get_preserves k : preserves f (Registry_get k).
Proof. unfold Registry_get. frame. Qed.

Lemma flush_preserves item : preserves f (flush item).
Proof.
  unfold flush.
  apply preserves_bind; [apply Registry_get_preserves|]. intros mapper.
  apply update_all_preserves.
Qed.

Lemma flush_all_preserves items : preserves f (for_each items flush).
Proof. apply preserves_for_each, flush_preserves. Qed.

Hypothesis f_durable : ∀ w d, f (set_durable d w) = f w.

Lemma Connection_commit_preserves : preserves f Connection_commit.
Proof.
  unfold Connection_commit, log. frame.
Qed.

Lemma UnitOfWork_commit_preserves : preserves f UnitOfWork_commit.
Proof.
  unfold UnitOfWork_commit.
  apply preserves_bind; [apply preserves_gets|]. intros items.
  apply preserves_bind; [apply flush_all_preserves|]. intros _.
  apply Connection_commit_preserves.
Qed.
End commit_frame.

(** ** Commit is determined by the objects, the registry and the dirty map *)

Section uniform.
Context (P : event → bool).

Lemma uniform_pure {A} (m : M A) :
  (∀ w1 w2, agree w1 w2 → (m w1).1 = (m w2).1) →
  (∀ w, (m w).2 = w) → uniform P m.
Proof.
  intros Hres Hw w1 w2 Hag. rewrite !Hw. split; [by apply Hres|].
  split; [done|]. split; [|done].
  exists []. by rewrite !app_nil_r.
Qed.

Lemma uniform_ret {A} (a : A) : uniform P (mret a).
Proof. by apply uniform_pure. Qed.

Lemma uniform_raise {A} e : uniform P (@raise A e).
Proof. by apply uniform_pure. Qed.

Lemma uniform_gets {A} (g : world → A) :
  (∀ w1 w2, agree w1 w2 → g w1 = g w2) → uniform P (gets g).
Proof. intros Hg. apply uniform_pure; [|done]. intros. simpl. f_equal. auto. Qed.

Lemma uniform_deref r : uniform P (deref r).
Proof.
  apply uniform_pure.
  - intros w1 w2 (Hh & _ & _). unfold deref. rewrite Hh.
    by destruct (heap w2 !! r).
  - intros w. unfold deref. by destruct (heap w !! r).
Qed.

Lemma uniform_log e : P e = true → uniform P (log e).
Proof.
  intros He w1 w2 Hag. simpl. repeat split; try apply Hag; try done.
  exists [e]. simpl. by rewrite He.
Qed.

Lemma uniform_execute stmt params : uniform P (Connection_execute stmt params).
Proof.
  destruct params as [|p params]; [apply uniform_raise|].
  intros w1 w2 Hag. simpl. repeat split; try apply Hag; try done.
  - exists []. by rewrite !app_nil_r.
  - by intros ->.
Qed.

Lemma uniform_bind {A C} (m : M A) (k : A → M C) :
  uniform P m → (∀ a, uniform P (k a)) → uniform P (m ≫= k).
Proof.
  intros Hm Hk w1 w2 Hag. rewrite !run_bind.
  destruct (Hm w1 w2 Hag) as (Hr & Hag' & (tr & Ht1 & Ht2 & HP) & Htxn & Hdur).
  destruct (m w1) as [r1 w1'], (m w2) as [r2 w2']. simpl in *. subst r2.
  destruct r1 as [a|e]; simpl.
  - destruct (Hk a w1' w2' Hag')
      as (Hr2 & Hag2 & (tr2 & Ht12 & Ht22 & HP2) & Htxn2 & Hdur2).
    split; [done|]. split; [done|]. split; [|split].
    + exists (tr ++ tr2). rewrite Ht12, Ht22, Ht1, Ht2, <- !app_assoc.
      by rewrite forallb_app, HP, HP2.
    + auto.
    + auto.
  - split; [done|]. split; [done|]. split; [|done]. by exists tr.
Qed.

Lemma uniform_for_each {A} (xs : list A) body :
  (∀ x, uniform P (body x)) → uniform P (for_each xs body).
Proof.
  intros Hbody. induction xs as [|x xs IH]; simpl.
  - apply uniform_ret.
  - apply uniform_bind; auto.
Qed.

Lemma uniform_collect {A C} (xs : list A) (g : A → M C) :
  (∀ x, uniform P (g x)) → uniform P (collect xs g).
Proof.
  intros Hg. induction xs as [|x xs IH]; simpl.
  - apply uniform_ret.
  - apply uniform_bind; [auto|]. intros y.
    apply uniform_bind; [auto|]. intros ys. apply uniform_ret.
Qed.

Lemma uniform_attr {A} (r : ref) (k : obj → M A) :
  (∀ o, uniform P (k o)) → uniform P (deref r ≫= k).
Proof. intros. apply uniform_bind; [apply uniform_deref | done]. Qed.
End uniform.

Section commit_uniform.
Context (P : event → bool).
Hypothesis P_update_all : ∀ m data, P (MapperCall m m_update_all data) = true.

Lemma update_all_uniform mapper data : uniform P (update_all mapper data).
Proof.
  unfold update_all, UserMapper_update_all, MessageMapper_update_all.
  destruct mapper as [| | | |[]]; try apply uniform_raise.
  - apply uniform_bind; [by apply uniform_log|]. intros _.
    apply uniform_bind; [|intros; apply uniform_execute].
    apply uniform_collect. intros user.
    apply uniform_bind.
    { apply uniform_attr. intros []; [apply uniform_raise|apply uniform_ret]. }
    intros name. apply uniform_bind; [|intros; apply uniform_ret].
    apply uniform_attr. intros []; [apply uniform_raise|apply uniform_ret].
  - apply uniform_bind; [by apply uniform_log|]. intros _.
    apply uniform_bind; [|intros; apply uniform_execute].
    apply uniform_collect. intros message.
    apply uniform_bind.
    { apply uniform_attr. intros []; [apply uniform_ret|apply uniform_raise]. }
    intros body. apply uniform_bind; [|intros; apply uniform_ret].
    apply uniform_attr. intros []; [apply uniform_ret|apply uniform_raise].
Qed.

Lemma Registry_get_uniform k : uniform P (Registry_get k).
Proof.
  unfold Registry_get. apply uniform_bind.
  - apply uniform_gets. by intros w1 w2 (_ & -> & _).
  - intros mapper. destruct (negb (truthy mapper));
      [apply uniform_raise | apply uniform_ret].
Qed.

Lemma flush_all_uniform items : uniform P (for_each items flush).
Proof.
  apply uniform_for_each. intros item. unfold flush.
  apply uniform_bind; [apply Registry_get_uniform|].
  intros mapper. apply update_all_uniform.
Qed.

Hypothesis P_commit : P ConnectionCommit = true.

Lemma Connection_commit_uniform : uniform P Connection_commit.
Proof.
  unfold Connection_commit. apply uniform_bind; [by apply uniform_log|].
  intros _ w1 w2 Hag. simpl. repeat split; try apply Hag; try done.
  exists []. by rewrite !app_nil_r.
Qed.

Lemma UnitOfWork_commit_uniform : uniform P UnitOfWork_commit.
Proof.
  unfold UnitOfWork_commit. apply uniform_bind.
  - apply uniform_gets. by intros w1 w2 (_ & _ & ->).
  - intros items. apply uniform_bind; [|intros; apply Connection_commit_uniform].
    apply flush_all_uniform.
Qed.
End commit_uniform.

Lemma world_ext w1 w2 :
  heap w1 = heap w2 → mappers w1 = mappers w2 → new w1 = new w2 →
  dirty w1 = dirty w2 → txn w1 = txn w2 → durable w1 = durable w2 →
  trace w1 = trace w2 → stdout w1 = stdout w2 → w1 = w2.
Proof. destruct w1, w2. simpl. by intros -> -> -> -> -> -> -> ->. Qed.

Lemma UnitOfWork_commit_agree w : agree (UnitOfWork_commit w).2 w.
Proof. repeat split; by apply UnitOfWork_commit_preserves. Qed.

(** What the flush of a dirty map calls: the [update_all] of each batch in
    turn, as far as it gets. *)
Lemma update_all_trace m data w :
  trace (update_all (VMapper m) data w).2
  = trace w ++ [MapperCall m m_update_all data].
Proof.
  assert (∀ stmt params, preserves trace (Connection_execute stmt params)) as Hexec.
  { intros stmt [|p params]; [apply preserves_raise|]. by apply preserves_modify. }
  destruct m; simpl.
  - unfold UserMapper_update_all. rewrite run_bind.
    change (log (MapperCall UserMapperObj m_update_all data) w)
      with (Ok tt, set_trace (trace w ++ [MapperCall UserMapperObj m_update_all data]) w).
    cbv beta iota.
    match goal with
    | |- trace (?rest ?w1).2 = _ =>
        assert (preserves trace rest) as Hrest; [|exact (Hrest w1)]
    end.
    apply preserves_bind; [|intros; apply Hexec].
    apply preserves_collect. intros user. unfold User_name, User_user_id. frame.
  - unfold MessageMapper_update_all. rewrite run_bind.
    change (log (MapperCall MessageMapperObj m_update_all data) w)
      with (Ok tt, set_trace (trace w ++ [MapperCall MessageMapperObj m_update_all data]) w).
    cbv beta iota.
    match goal with
    | |- trace (?rest ?w1).2 = _ =>
        assert (preserves trace rest) as Hrest; [|exact (Hrest w1)]
    end.
    apply preserves_bind; [|intros; apply Hexec].
    apply preserves_collect. intros message.
    unfold Message_body, Message_message_id. frame.
Qed.

Lemma flush_not_dispatched item w :
  dispatched w item = None → ∃ e, flush item w = (Raise e, w).
Proof.
  unfold dispatched, flush. rewrite run_bind, Registry_get_run.
  destruct (mappers w !! item.1) as [[| |z|s|m]|]; simpl; try done;
    intros _; try (by eexists).
  - destruct b; by eexists.
  - destruct (negb (z =? 0)%Z); by eexists.
  - destruct (negb (String.eqb s "")); by eexists.
Qed.

Lemma flush_dispatched item call w :
  dispatched w item = Some call →
  trace (flush item w).2 = trace w ++ [call].
Proof.
  unfold dispatched, flush. rewrite run_bind, Registry_get_run.
  destruct (mappers w !! item.1) as [[| | | |m]|]; simpl; try done.
  intros [= <-]. apply update_all_trace.
Qed.

Lemma dispatched_agree w1 w2 item :
  mappers w1 = mappers w2 → dispatched w1 item = dispatched w2 item.
Proof. unfold dispatched. by intros ->. Qed.

Lemma flush_all_calls items w :
  ∃ flushed calls,
    flushed `prefix_of` items
    ∧ Forall2 (λ item call, dispatched w item = Some call) flushed calls
    ∧ trace (for_each items flush w).2 = trace w ++ calls
    ∧ ((for_each items flush w).1 = Ok tt → flushed = items).
Proof.
  revert w. induction items as [|item items IH]; intros w.
  { exists [], []. simpl. by rewrite app_nil_r. }
  cbn [for_each]. rewrite run_bind.
  destruct (dispatched w item) as [call|] eqn:Hcall.
  - pose proof (flush_dispatched _ _ _ Hcall) as Htr.
    pose proof (flush_preserves mappers ltac:(done) ltac:(done) item w) as Hm.
    destruct (flush item w) as [[[]|e] w1]; simpl in Htr, Hm.
    + destruct (IH w1) as (flushed & calls & Hpre & Hcalls & Htr1 & Hok).
      exists (item :: flushed), (call :: calls).
      split; [by apply prefix_cons|]. split.
      { constructor; [done|]. eapply Forall2_impl; [exact Hcalls|].
        intros item' call' <-. symmetry. by apply dispatched_agree. }
      split; [by rewrite Htr1, Htr, <- app_assoc|].
      intros Hres. by rewrite (Hok Hres).
    + exists [item], [call]. simpl.
      split; [apply prefix_cons, prefix_nil|].
      split; [by repeat constructor|]. done.
  - destruct (flush_not_dispatched _ _ Hcall) as [e ->].
    exists [], []. simpl. split; [apply prefix_nil|]. split; [constructor|].
    by rewrite app_nil_r.
Qed.

Lemma UnitOfWork_commit_calls w :
  ∃ flushed calls,
    flushed `prefix_of` dirty w
    ∧ Forall2 (λ item call, dispatched w item = Some call) flushed calls
    ∧ ((UnitOfWork_commit w).1 = Ok tt → flushed = dirty w)
    ∧ trace (UnitOfWork_commit w).2
      = trace w ++ calls ++ committed (UnitOfWork_commit w).1.
Proof.
  destruct (flush_all_calls (dirty w) w) as (flushed & calls & Hpre & Hcalls & Htr & Hok).
  exists flushed, calls. split; [done|]. split; [done|].
  unfold UnitOfWork_commit. rewrite run_bind. simpl. rewrite run_bind.
  destruct (for_each (dirty w) flush w) as [[[]|e] w1]; simpl in *.
  - split; [by intros _; apply Hok|]. by rewrite Htr, <- app_assoc.
  - split; [done|]. by rewrite Htr, app_nil_r.
Qed.

Lemma dispatched_calls_update_all w (flushed : dict (list ref)) calls :
  Forall2 (λ item call, dispatched w item = Some call) flushed calls →
  forallb is_update_all calls = true.
Proof.
  induction 1 as [|item call flushed calls Hcall _ IH]; [done|].
  simpl. rewrite IH, andb_true_r. unfold dispatched in Hcall.
  destruct (mappers w !! item.1) as [[| | | |m]|]; try done.
  by injection Hcall as <-.
Qed.

(** C5: [commit] neither reads nor writes the [new] map and leaves [new]
    and [dirty] as they were.  What it calls is read off the dirty map
    alone: the [update_all] of the mapper of each kind with the list of
    that kind, in the iteration order of the map, for all of them when it
    returns and up to the one that fails when it raises, and then the
    connection's [commit] when it returns; no other mapper method.  A
    second [commit] therefore has the same outcome and makes the very
    same calls with the same lists again. *)
Theorem C5_commit_ignores_new_and_keeps_maps (w : world) (n : dict (list ref)) :
  new (UnitOfWork_commit w).2 = new w
  ∧ dirty (UnitOfWork_commit w).2 = dirty w
  ∧ UnitOfWork_commit (set_new n w)
    = ((UnitOfWork_commit w).1, set_new n (UnitOfWork_commit w).2)
  ∧ ∃ flushed calls,
      flushed `prefix_of` dirty w
      ∧ Forall2 (λ item call, dispatched w item = Some call) flushed calls
      ∧ forallb is_update_all calls = true
      ∧ ((UnitOfWork_commit w).1 = Ok tt → flushed = dirty w)
      ∧ trace (UnitOfWork_commit w).2
        = trace w ++ calls ++ committed (UnitOfWork_commit w).1
      ∧ (UnitOfWork_commit (UnitOfWork_commit w).2).1 = (UnitOfWork_commit w).1
      ∧ trace (UnitOfWork_commit (UnitOfWork_commit w).2).2
        = trace (UnitOfWork_commit w).2
          ++ calls ++ committed (UnitOfWork_commit w).1.
Proof.
  split; [by apply UnitOfWork_commit_preserves|].
  split; [by apply UnitOfWork_commit_preserves|].
  split.
  - assert (agree (set_new n w) w) as Hag by done.
    destruct (UnitOfWork_commit_uniform is_update_all_or_commit
                ltac:(done) ltac:(done) _ _ Hag)
      as (Hr & (Hh & Hm & Hd) & (tr & Ht1 & Ht2 & _) & Htxn & Hdur).
    pose proof (UnitOfWork_commit_preserves new
                  ltac:(done) ltac:(done) ltac:(done) (set_new n w)) as Hnew.
    pose proof (UnitOfWork_commit_preserves stdout
                  ltac:(done) ltac:(done) ltac:(done) (set_new n w)) as Hout1.
    pose proof (UnitOfWork_commit_preserves stdout
                  ltac:(done) ltac:(done) ltac:(done) w) as Hout2.
    rewrite (surjective_pairing (UnitOfWork_commit (set_new n w))).
    f_equal; [done|]. apply world_ext; simpl; auto.
    + rewrite Ht1, Ht2. done.
    + by rewrite Hout1, Hout2.
  - destruct (UnitOfWork_commit_calls w) as (flushed & calls & Hpre & Hcalls & Hok & Htr).
    destruct (UnitOfWork_commit_uniform is_update_all_or_commit
                ltac:(done) ltac:(done) _ _ (UnitOfWork_commit_agree w))
      as (Hr & _ & (tr & Ht1 & Ht2 & _) & _).
    exists flushed, calls.
    split; [done|]. split; [done|].
    split; [by eapply dispatched_calls_update_all|].
    split; [done|]. split; [done|]. split; [done|].
    rewrite Htr in Ht2. apply app_inv_head in Ht2. by rewrite Ht1, Ht2.
Qed.

(** ** Commit with a kind that has no mapper *)

Lemma for_each_app_raise {A} (pre post : list A) x (f : A → M unit) w w1 e w2 :
  for_each pre f w = (Ok tt, w1) →
  f x w1 = (Raise e, w2) →
  for_each (pre ++ x :: post) f w = (Raise e, w2).
Proof.
  revert w. induction pre as [|y pre IH]; intros w; simpl.
  - intros [= ->] Hx. by rewrite run_bind, Hx.
  - rewrite !run_bind. destruct (f y w) as [[[]|e'] w']; [|done].
    apply IH.
Qed.

Lemma flush_missing k data w :
  mappers w !! k = None →
  flush (k, data) w = (Raise (PyException "Mapper not found"), w).
Proof.
  intros Hk. unfold flush. rewrite run_bind, Registry_get_run. simpl.
  by rewrite Hk.
Qed.

Lemma log_run e w : log e w = (Ok tt, set_trace (trace w ++ [e]) w).
Proof. reflexivity. Qed.

Lemma collect_user_params (d : list ref) w :
  forallb (is_user (heap w)) d = true →
  collect d (λ user,
    name ← User_name user; user_id ← User_user_id user; mret (name, user_id)) w
  = (Ok (user_params (heap w) d), w).
Proof.
  induction d as [|r d IH]; simpl; [done|].
  rewrite andb_true_iff. intros [Hr Hd]. unfold is_user in Hr.
  rewrite !run_bind. unfold User_name at 1, User_user_id at 1.
  rewrite !run_bind. unfold deref.
  destruct (heap w !! r) as [[m|u]|] eqn:Hlook; try done. simpl.
  rewrite !run_bind, Hlook. simpl. rewrite run_bind, (IH Hd). done.
Qed.

Lemma collect_message_params (d : list ref) w :
  forallb (is_message (heap w)) d = true →
  collect d (λ message,
    body ← Message_body message; message_id ← Message_message_id message;
    mret (body, message_id)) w
  = (Ok (message_params (heap w) d), w).
Proof.
  induction d as [|r d IH]; simpl; [done|].
  rewrite andb_true_iff. intros [Hr Hd]. unfold is_message in Hr.
  rewrite !run_bind. unfold Message_body at 1, Message_message_id at 1.
  rewrite !run_bind. unfold deref.
  destruct (heap w !! r) as [[m|u]|] eqn:Hlook; try done. simpl.
  rewrite !run_bind, Hlook. simpl. rewrite run_bind, (IH Hd). done.
Qed.

Lemma Connection_execute_run stmt params w :
  params ≠ [] →
  Connection_execute stmt params w
  = (Ok tt, set_txn (executemany stmt params (txn w)) w).
Proof. by destruct params. Qed.

Lemma user_params_nonempty h (d : list ref) :
  nonempty d = true → forallb (is_user h) d = true → user_params h d ≠ [].
Proof.
  destruct d as [|r d]; [done|]. intros _. simpl. unfold is_user, user_params.
  simpl. by destruct (h !! r) as [[m|u]|].
Qed.

Lemma message_params_nonempty h (d : list ref) :
  nonempty d = true → forallb (is_message h) d = true → message_params h d ≠ [].
Proof.
  destruct d as [|r d]; [done|]. intros _. simpl. unfold is_message, message_params.
  simpl. by destruct (h !! r) as [[m|u]|].
Qed.

(** Flushing a well-typed batch logs one [update_all] and runs its
    batched statement. *)
Lemma flush_well_typed item w :
  well_typed_batch w item = true →
  flush item w =
  (Ok tt, set_txn (batch_update w item (txn w))
            (set_trace (trace w ++ option_list (dispatched w item)) w)).
Proof.
  unfold well_typed_batch, flush, batch_update, dispatched.
  rewrite run_bind, Registry_get_run.
  destruct (mappers w !! item.1) as [[| | | |[]]|]; try done; simpl;
    intros [Hne Hty]%andb_true_iff.
  - unfold UserMapper_update_all.
    rewrite (run_bind_ok _ _ _ _ _ (log_run _ w)).
    rewrite (run_bind_ok _ _ _ _ _ (collect_user_params item.2 (set_trace _ w) Hty)).
    by rewrite Connection_execute_run by by apply user_params_nonempty.
  - unfold MessageMapper_update_all.
    rewrite (run_bind_ok _ _ _ _ _ (log_run _ w)).
    rewrite (run_bind_ok _ _ _ _ _ (collect_message_params item.2 (set_trace _ w) Hty)).
    by rewrite Connection_execute_run by by apply message_params_nonempty.
Qed.

Lemma flush_all_well_typed (pre : list (mapper_type * list ref)) w :
  forallb (well_typed_batch w) pre = true →
  for_each pre flush w =
  (Ok tt, set_txn (foldl (λ db item, batch_update w item db) (txn w) pre)
            (set_trace (trace w ++ omap (dispatched w) pre) w)).
Proof.
  revert w. induction pre as [|item pre IH]; intros w; simpl.
  - intros _. rewrite app_nil_r. unfold set_txn, set_trace. simpl.
    by rewrite world_eta.
  - rewrite andb_true_iff. intros [Hitem Hpre].
    rewrite run_bind, (flush_well_typed _ _ Hitem).
    rewrite IH by done. f_equal. unfold set_txn, set_trace. simpl. f_equal.
    rewrite <- app_assoc. f_equal.
    unfold dispatched. simpl.
    by destruct (mappers w !! item.1) as [[]|].
Qed.

Lemma dispatched_well_typed (pre : list (mapper_type * list ref)) w :
  forallb (well_typed_batch w) pre = true →
  Forall2 (λ item call, ∃ m, mappers w !! item.1 = Some (VMapper m)
                             ∧ call = MapperCall m m_update_all item.2)
          pre (omap (dispatched w) pre).
Proof.
  induction pre as [|item pre IH]; simpl; [constructor|].
  rewrite andb_true_iff. intros [Hitem Hpre].
  unfold well_typed_batch in Hitem. unfold dispatched at 1.
  destruct (mappers w !! item.1) as [[| | | |m]|] eqn:Hm; try done.
  constructor; [by exists m | by apply IH].
Qed.

(** C3: with a kind in the dirty map that has no registry entry, and
    well-typed batches before it, [commit] raises the mapper-not-found
    exception; each earlier kind, in iteration order, has had the
    [update_all] of its mapper called with its list and its statement run;
    no call was made for the missing kind or a later one, and the
    transaction was not committed. *)
Theorem C3_commit_fails_at_missing_kind
    (w : world) (pre post : list (mapper_type * list ref))
    (k : mapper_type) (data : list ref) :
  dirty w = pre ++ (k, data) :: post →
  mappers w !! k = None →
  forallb (well_typed_batch w) pre = true →
  ∃ w' calls,
    UnitOfWork_commit w = (Raise (PyException "Mapper not found"), w')
    ∧ trace w' = trace w ++ calls
    ∧ Forall2 (λ item call, ∃ m, mappers w !! item.1 = Some (VMapper m)
                                 ∧ call = MapperCall m m_update_all item.2)
              pre calls
    ∧ txn w' = foldl (λ db item, batch_update w item db) (txn w) pre
    ∧ durable w' = durable w
    ∧ dirty w' = dirty w.
Proof.
  intros Hdirty Hk Hpre.
  eexists _, (omap (dispatched w) pre). split; [|split; [|split]].
  - unfold UnitOfWork_commit. rewrite run_bind. simpl. rewrite Hdirty.
    rewrite run_bind.
    erewrite for_each_app_raise;
      [reflexivity | by apply flush_all_well_typed | by apply flush_missing].
  - done.
  - by apply dispatched_well_typed.
  - done.
Qed.

Lemma C3_witness :
  ∃ w' calls,
    UnitOfWork_commit world_without_user_mapper
    = (Raise (PyException "Mapper not found"), w')
    ∧ trace w' = trace world_without_user_mapper ++ calls
    ∧ Forall2 (λ item call,
         ∃ m, mappers world_without_user_mapper !! item.1 = Some (VMapper m)
              ∧ call = MapperCall m m_update_all item.2)
        [(KMessageMapper, [0%nat])] calls
    ∧ txn w' = foldl (λ db item, batch_update world_without_user_mapper item db)
                 (txn world_without_user_mapper) [(KMessageMapper, [0%nat])]
    ∧ durable w' = durable world_without_user_mapper
    ∧ dirty w' = dirty world_without_user_mapper.
Proof.
  apply (C3_commit_fails_at_missing_kind world_without_user_mapper
           [(KMessageMapper, [0%nat])] [] KUserMapper [1%nat]).
  - reflexivity.
  - vm_compute. reflexivity.
  - vm_compute. reflexivity.
Defined.

(** In that world the message was flushed to the open transaction before
    the failure, and nothing became durable. *)
Example commit_without_user_mapper :
  (UnitOfWork_commit world_without_user_mapper).1
  = Raise (PyException "Mapper not found")
  ∧ messages (txn (UnitOfWork_commit world_without_user_mapper).2)
    = [mkMessageRow 1 "body 1" (Some 1%Z)]
  ∧ messages (durable (UnitOfWork_commit world_without_user_mapper).2)
    = [mkMessageRow 1 "old body" (Some 1%Z)]
  ∧ trace (UnitOfWork_commit world_without_user_mapper).2
    = [MapperCall MessageMapperObj m_update_all [0%nat]].
Proof. by vm_compute. Qed.

Lemma flush_all_raises (items : list (mapper_type * list ref)) k w :
  k ∈ items.*1 → mappers w !! k = None →
  ∃ e w', for_each items flush w = (Raise e, w').
Proof.
  revert w. induction items as [|[k' data] items IH]; intros w; simpl.
  - by intros ?%elem_of_nil.
  - rewrite elem_of_cons. intros Hin Hk. rewrite run_bind.
    destruct (flush (k', data) w) as [[[]|e] w1] eqn:Hflush; [|by eauto].
    destruct Hin as [->|Hin].
    + by rewrite flush_missing in Hflush.
    + apply IH; [done|].
      pose proof (flush_preserves mappers ltac:(done) ltac:(done) (k', data) w) as Hm.
      rewrite Hflush in Hm. simpl in Hm. by rewrite Hm.
Qed.

(** Whatever the other batches hold, a kind without mapper makes [commit]
    raise before the transaction is committed. *)
Lemma commit_aborts_before_transaction_commit w k :
  k ∈ (dirty w).*1 → mappers w !! k = None →
  ∃ e w' calls,
    UnitOfWork_commit w = (Raise e, w')
    ∧ durable w' = durable w
    ∧ trace w' = trace w ++ calls
    ∧ forallb is_update_all calls = true.
Proof.
  intros Hin Hk.
  destruct (flush_all_raises _ _ _ Hin Hk) as (e & w' & Hrun).
  pose proof (flush_all_preserves durable ltac:(done) ltac:(done) (dirty w) w) as Hdur.
  destruct (flush_all_uniform is_update_all ltac:(done) (dirty w) w w ltac:(done))
    as (_ & _ & (calls & Htr & _ & Hcalls) & _).
  rewrite Hrun in Hdur, Htr. simpl in *.
  exists e, w', calls. split; [|done].
  unfold UnitOfWork_commit. rewrite run_bind. simpl.
  by rewrite run_bind, Hrun.
Qed.

(** ** What [with_id] builds *)

Lemma collect_new_message_proxy rows w :
  collect rows new_message_proxy w =
  (Ok (proxies_from (length (heap w)) (length rows)),
   set_heap (heap w ++ (message_of_row <$> rows)) w).
Proof.
  revert w. induction rows as [|row rows IH]; intros w; simpl.
  - rewrite app_nil_r. unfold set_heap. by rewrite world_eta.
  - rewrite run_bind. unfold new_message_proxy at 1. rewrite run_bind. simpl.
    rewrite run_bind, IH. simpl. rewrite length_app. simpl.
    rewrite Nat.add_1_r. unfold set_heap. simpl.
    by rewrite <- app_assoc.
Qed.

Lemma UserRepository_load_run rows row w :
  last rows = Some row →
  UserRepository_load rows w =
  (Ok (mkUserProxy (length (heap w) + length rows)),
   set_heap (heap w ++ (message_of_row <$> rows) ++
             [OUser (mkUser (row_user_id row) (row_user_name row)
                       (proxies_from (length (heap w)) (length rows)))]) w).
Proof.
  intros Hlast. unfold UserRepository_load.
  rewrite (run_bind_ok _ _ _ _ _ (collect_new_message_proxy rows w)), Hlast.
  rewrite run_bind. unfold alloc. simpl.
  rewrite length_app, length_fmap. unfold set_heap. simpl.
  by rewrite <- app_assoc.
Qed.

(** Every row of the join carries the columns of the one user selected. *)
Lemma join_rows_user_columns uid db row :
  row ∈ join_rows uid db →
  row_user_id row = uid ∧ users db !! uid = Some (row_user_name row).
Proof.
  unfold join_rows. destruct (users db !! uid) as [name|]; [|by intros ?%elem_of_nil].
  intros (m & -> & _)%list_elem_of_fmap. done.
Qed.

Lemma join_rows_last_first uid db row rows :
  join_rows uid db = row :: rows →
  ∃ row', last (row :: rows) = Some row'
          ∧ row_user_id row' = row_user_id row
          ∧ row_user_name row' = row_user_name row.
Proof.
  intros Hrows.
  destruct (last (row :: rows)) as [row'|] eqn:Hlast.
  - exists row'. split; [done|].
    assert (row' ∈ join_rows uid db) as Hin'.
    { rewrite Hrows. by apply last_Some_elem_of. }
    assert (row ∈ join_rows uid db) as Hin.
    { rewrite Hrows. apply list_elem_of_here. }
    apply join_rows_user_columns in Hin as [Hid Hname].
    apply join_rows_user_columns in Hin' as [Hid' Hname'].
    split; congruence.
  - by apply last_None in Hlast.
Qed.

(** The join lists the messages of the user in storage order. *)
Lemma join_rows_messages uid db :
  (λ row, (row_message_id row, row_message_body row)) <$> join_rows uid db
  = match users db !! uid with
    | Some _ =>
        (λ m, (msg_id m, msg_body m))
          <$> filter (λ m, msg_user_id m = Some uid) (messages db)
    | None => []
    end.
Proof.
  unfold join_rows. destruct (users db !! uid); [|done].
  rewrite <- list_fmap_compose. done.
Qed.

(** What [with_id] returns and creates on a non-empty result. *)
Lemma UserRepository_with_id_run w uid row rows :
  join_rows uid (txn w) = row :: rows →
  UserRepository_with_id uid w
  = (Ok (mkUserProxy (length (heap w) + length (row :: rows))),
     set_heap (heap w ++ (message_of_row <$> row :: rows) ++
               [OUser (mkUser (row_user_id row) (row_user_name row)
                         (proxies_from (length (heap w)) (length (row :: rows))))])
       w).
Proof.
  intros Hrows.
  destruct (join_rows_last_first _ _ _ _ Hrows) as (row' & Hlast & Hid & Hname).
  unfold UserRepository_with_id.
  rewrite (run_bind_ok _ _ _ _ _ (select_join_run uid w)), Hrows.
  by rewrite (UserRepository_load_run _ _ _ Hlast), Hid, Hname.
Qed.

(** C7: on a result with at least one row, [with_id] creates one message
    per row, in the order of the rows, each wrapped in a message proxy;
    then the user, from the user columns of the first row and the list of
    these proxies; and returns the proxy of that user. *)
Theorem C7_with_id_builds_aggregate
    (w : world) (uid : Z) (row : Row) (rows : list Row) :
  join_rows uid (txn w) = row :: rows →
  ∃ w',
    UserRepository_with_id uid w
    = (Ok (mkUserProxy (length (heap w) + length (row :: rows))), w')
    ∧ w' = set_heap (heap w') w
    ∧ length (heap w') = (length (heap w) + length (row :: rows) + 1)%nat
    ∧ (∀ r, (r < length (heap w))%nat → heap w' !! r = heap w !! r)
    ∧ heap w' !! (length (heap w) + length (row :: rows))%nat
      = Some (OUser (mkUser (row_user_id row) (row_user_name row)
                       (proxies_from (length (heap w)) (length (row :: rows)))))
    ∧ length (proxies_from (length (heap w)) (length (row :: rows)))
      = length (row :: rows)
    ∧ ∀ i row_i, (row :: rows) !! i = Some row_i →
        proxies_from (length (heap w)) (length (row :: rows)) !! i
        = Some (Proxied (mkMessageProxy (length (heap w) + i)))
        ∧ heap w' !! (length (heap w) + i)%nat
          = Some (OMessage (mkMessage (row_message_id row_i)
                                      (row_message_body row_i))).
Proof.
  intros Hrows.
  eexists. split; [by apply UserRepository_with_id_run|].
  set (n := length (row :: rows)). set (msgs := message_of_row <$> row :: rows).
  assert (length msgs = n) as Hlen by apply length_fmap.
  unfold set_heap. cbn [heap]. split; [done|]. split.
  { rewrite !length_app, Hlen. clearbody n msgs. simpl. lia. }
  split.
  { intros r Hr. by rewrite lookup_app_l. }
  split.
  { rewrite app_assoc. rewrite <- Hlen, <- length_app.
    by rewrite list_lookup_middle. }
  split.
  { unfold proxies_from. by rewrite length_fmap, length_seq. }
  intros i row_i Hi. split.
  - unfold proxies_from. rewrite list_lookup_fmap, lookup_seq_lt; [done|].
    by apply lookup_lt_Some in Hi.
  - rewrite lookup_app_r by lia.
    replace (length (heap w) + i - length (heap w))%nat with i by lia.
    rewrite lookup_app_l.
    + unfold msgs. by rewrite list_lookup_fmap, Hi.
    + rewrite Hlen. by apply lookup_lt_Some in Hi.
Qed.

Lemma C7_witness :
  ∃ w',
    UserRepository_with_id 1 seeded_world = (Ok (mkUserProxy 3), w')
    ∧ heap w' = [OMessage (mkMessage 1 "body 1");
                 OMessage (mkMessage 2 "body 2");
                 OMessage (mkMessage 3 "body 3");
                 OUser (mkUser 1 "bob"
                          [Proxied (mkMessageProxy 0); Proxied (mkMessageProxy 1);
                           Proxied (mkMessageProxy 2)])].
Proof.
  destruct (C7_with_id_builds_aggregate seeded_world 1
              (mkRow 1 "bob" 1 "body 1")
              [mkRow 1 "bob" 2 "body 2"; mkRow 1 "bob" 3 "body 3"])
    as (w' & Hrun & Hw' & _).
  - vm_compute. reflexivity.
  - exists w'. split; [exact Hrun|].
    vm_compute in Hrun. by injection Hrun as <-.
Defined.

(** ** Editing messages through a user *)

Lemma message_id_of_run x w m :
  heap w !! handle_ref x = Some (OMessage m) →
  message_id_of x w = (Ok (_message_id m), w).
Proof.
  intros Hlook.
  destruct x as [r|[r]]; simpl in *;
    unfold MessageProxy_message_id, Message_message_id; simpl;
    rewrite run_bind; unfold deref; by rewrite Hlook.
Qed.

Lemma Message_edit_run r body w m :
  heap w !! r = Some (OMessage m) →
  Message_edit r body w
  = (Ok tt, set_heap (<[r:=OMessage (mkMessage (_message_id m) body)]> (heap w)) w).
Proof.
  intros Hlook. unfold Message_edit. rewrite run_bind. unfold deref.
  by rewrite Hlook.
Qed.

Lemma edit_of_run x body w m :
  heap w !! handle_ref x = Some (OMessage m) →
  edit_of x body w
  = (Ok tt,
     set_heap (<[handle_ref x:=OMessage (mkMessage (_message_id m) body)]> (heap w))
       (if is_proxied x
        then set_dirty (setdefault_append KMessageMapper (handle_ref x) (dirty w)) w
        else w)).
Proof.
  intros Hlook. destruct x as [r|[r]]; simpl in *.
  - by apply Message_edit_run.
  - unfold MessageProxy_edit. simpl. rewrite run_bind. simpl.
    by rewrite (Message_edit_run r body (set_dirty _ w) m Hlook).
Qed.

Lemma has_id_insert h r0 m b mid r :
  h !! r0 = Some (OMessage m) →
  has_id (<[r0:=OMessage (mkMessage (_message_id m) b)]> h) mid r = has_id h mid r.
Proof.
  intros Hlook. unfold has_id. destruct (decide (r0 = r)) as [<-|Hne].
  - rewrite list_lookup_insert_eq by by eapply lookup_lt_Some. by rewrite Hlook.
  - by rewrite list_lookup_insert_ne.
Qed.

Lemma is_message_insert h r0 m m' r :
  h !! r0 = Some (OMessage m) →
  is_message (<[r0:=OMessage m']> h) r = is_message h r.
Proof.
  intros Hlook. unfold is_message. destruct (decide (r0 = r)) as [<-|Hne].
  - rewrite list_lookup_insert_eq by by eapply lookup_lt_Some. by rewrite Hlook.
  - by rewrite list_lookup_insert_ne.
Qed.

Lemma dirtied_ext h1 h2 mid hs :
  (∀ r, has_id h1 mid r = has_id h2 mid r) →
  dirtied h1 mid hs = dirtied h2 mid hs.
Proof.
  intros Hext. induction hs as [|x hs IH]; simpl; [done|].
  by rewrite Hext, IH.
Qed.

Lemma bool_decide_elem_of_cons_ne (r r0 : ref) (l : list ref) :
  r ≠ r0 → bool_decide (r ∈ r0 :: l) = bool_decide (r ∈ l).
Proof.
  intros Hne. apply bool_decide_ext. rewrite elem_of_cons.
  split; [by intros [?|?] | by right].
Qed.

(** The loop of [edit_message] over handles that all stand for live
    messages: it cannot fail; it overwrites the body of every message of
    the list whose identity is [mid]; and it registers dirty exactly those
    of them it reached through a proxy. *)
Lemma edit_loop_run mid body hs w :
  Forall (λ x, is_message (heap w) (handle_ref x) = true) hs →
  ∃ H,
    for_each hs (edit_if_matches mid body) w
    = (Ok tt,
       set_dirty (foldl (λ d r, setdefault_append KMessageMapper r d)
                    (dirty w) (dirtied (heap w) mid hs))
         (set_heap H w))
    ∧ length H = length (heap w)
    ∧ ∀ r, H !! r =
           if bool_decide (r ∈ handle_ref <$> hs) && has_id (heap w) mid r
           then Some (OMessage (mkMessage mid body))
           else heap w !! r.
Proof.
  revert w. induction hs as [|x hs IH]; intros w Hall.
  - exists (heap w). split; [|done]. simpl.
    unfold set_dirty, set_heap. simpl. by rewrite world_eta.
  - apply Forall_cons in Hall as [Hx Hall].
    unfold is_message in Hx.
    destruct (heap w !! handle_ref x) as [[m|]|] eqn:Hlook; try done.
    cbn [for_each]. rewrite run_bind. unfold edit_if_matches at 1.
    rewrite (run_bind_ok _ _ _ _ _ (message_id_of_run x w m Hlook)).
    destruct (decide (_message_id m = mid)) as [Hid|Hid].
    + rewrite (edit_of_run x body w m Hlook).
      set (h1 := <[handle_ref x:=OMessage (mkMessage (_message_id m) body)]> (heap w)).
      set (w1 := set_heap h1 _).
      assert (heap w1 = h1) as Hh1 by done.
      assert (has_id (heap w) mid (handle_ref x) = true) as Hhas.
      { unfold has_id. rewrite Hlook. by apply bool_decide_eq_true. }
      destruct (IH w1) as (H & Hrun & Hlen & Hpt).
      { rewrite Hh1. eapply Forall_impl; [exact Hall|]. intros y Hy. simpl in *.
        unfold h1. by rewrite (is_message_insert _ _ m). }
      exists H. split; [|split].
      * rewrite Hrun. f_equal. rewrite Hh1.
        rewrite (dirtied_ext h1 (heap w)) by (intros; by apply has_id_insert).
        cbn [dirtied]. rewrite Hhas. unfold w1.
        by destruct (is_proxied x).
      * rewrite Hlen, Hh1. apply length_insert.
      * intros r. rewrite Hpt, Hh1. unfold h1 at 1. rewrite has_id_insert by done.
        rewrite fmap_cons. destruct (decide (r = handle_ref x)) as [->|Hne].
        -- rewrite Hhas, (bool_decide_eq_true_2 (_ ∈ _ :: _)) by apply list_elem_of_here.
           simpl. rewrite andb_true_r. unfold h1.
           rewrite list_lookup_insert_eq by by eapply lookup_lt_Some.
           rewrite Hid. by destruct (bool_decide _).
        -- rewrite bool_decide_elem_of_cons_ne by done.
           unfold h1. by rewrite list_lookup_insert_ne.
    + destruct (IH w Hall) as (H & Hrun & Hlen & Hpt).
      assert (has_id (heap w) mid (handle_ref x) = false) as Hhas.
      { unfold has_id. rewrite Hlook. by apply bool_decide_eq_false. }
      exists H. split; [|split; [done|]].
      * rewrite run_ret, Hrun.
        cbn [dirtied]. by rewrite Hhas, andb_false_r.
      * intros r. rewrite Hpt, fmap_cons.
        destruct (decide (r = handle_ref x)) as [->|Hne].
        -- rewrite Hhas, !andb_false_r. done.
        -- by rewrite bool_decide_elem_of_cons_ne.
Qed.

Lemma User_edit_message_run self u mid body w :
  heap w !! self = Some (OUser u) →
  User_edit_message self mid body w
  = for_each (_messages u) (edit_if_matches mid body) w.
Proof.
  intros Hlook. unfold User_edit_message. rewrite run_bind. unfold deref.
  by rewrite Hlook.
Qed.

Lemma dirtied_no_match h mid hs :
  Forall (λ x, has_id h mid (handle_ref x) = false) hs → dirtied h mid hs = [].
Proof.
  induction 1 as [|x hs Hx _ IH]; simpl; [done|].
  by rewrite Hx, andb_false_r.
Qed.

(** C9: [User.edit_message] scans the owned messages.  It raises nothing;
    when no owned message has the identity asked for, nothing at all
    changes; in general the user keeps its name and its list, and each
    owned message keeps its identity and gets the new body exactly when
    its identity is the one asked for. *)
Theorem C9_edit_message_scan
    (w : world) (self : ref) (u : User_t) (mid : Z) (body : string) :
  heap w !! self = Some (OUser u) →
  Forall (λ x, is_message (heap w) (handle_ref x) = true) (_messages u) →
  (Forall (λ x, has_id (heap w) mid (handle_ref x) = false) (_messages u) →
   User_edit_message self mid body w = (Ok tt, w))
  ∧ ∃ w', User_edit_message self mid body w = (Ok tt, w')
      ∧ heap w' !! self = Some (OUser u)
      ∧ ∀ x m, x ∈ _messages u →
          heap w !! handle_ref x = Some (OMessage m) →
          heap w' !! handle_ref x
          = Some (OMessage (mkMessage (_message_id m)
                     (if decide (_message_id m = mid) then body else _body m))).
Proof.
  intros Hself Hall. rewrite (User_edit_message_run _ _ _ _ _ Hself).
  destruct (edit_loop_run mid body _ w Hall) as (H & Hrun & Hlen & Hpt).
  rewrite Hrun. split.
  - intros Hnone. rewrite (dirtied_no_match _ _ _ Hnone). simpl.
    assert (H = heap w) as ->.
    { apply list_eq. intros r. rewrite Hpt.
      destruct (bool_decide (r ∈ handle_ref <$> _messages u)) eqn:Hin; [|done].
      apply bool_decide_eq_true in Hin.
      apply list_elem_of_fmap in Hin as (x & -> & Hx).
      rewrite Forall_forall in Hnone. by rewrite (Hnone x Hx). }
    unfold set_dirty, set_heap. simpl. by rewrite world_eta.
  - eexists. split; [done|]. cbn [heap set_dirty set_heap]. split.
    + rewrite Hpt. unfold has_id. rewrite Hself. by rewrite andb_false_r.
    + intros x m Hx Hlook. rewrite Hpt.
      rewrite bool_decide_eq_true_2 by by apply list_elem_of_fmap_2.
      unfold has_id. rewrite Hlook. simpl.
      destruct (decide (_message_id m = mid)) as [Hid|Hid].
      * rewrite bool_decide_eq_true_2 by done. by rewrite Hid.
      * rewrite bool_decide_eq_false_2 by done. by destruct m.
Qed.

Lemma C9_witness :
  User_edit_message 1%nat 7 "edited" world_without_user_mapper
  = (Ok tt, world_without_user_mapper).
Proof.
  apply (C9_edit_message_scan world_without_user_mapper 1%nat
           (mkUser 1 "bob" [RawMessage 0%nat]) 7 "edited").
  - reflexivity.
  - repeat constructor.
  - repeat constructor.
Defined.

(** ** Editing messages through the proxy of a loaded user *)

Lemma handle_ref_proxies_from s n : handle_ref <$> proxies_from s n = seq s n.
Proof.
  unfold proxies_from.
  induction (seq s n) as [|r l IH]; [done|]. rewrite !fmap_cons. by rewrite IH.
Qed.

Lemma dirtied_proxies_from h mid s n :
  dirtied h mid (proxies_from s n) = filter (λ r, has_id h mid r = true) (seq s n).
Proof.
  unfold proxies_from. induction (seq s n) as [|r l IH]; [done|].
  rewrite fmap_cons, filter_cons. cbn [dirtied is_proxied handle_ref _message andb].
  rewrite IH.
  destruct (has_id h mid r); [by rewrite decide_True | by rewrite decide_False].
Qed.

Lemma created_lookup (h : list obj) rows tl i row :
  rows !! i = Some row →
  (h ++ (message_of_row <$> rows) ++ tl) !! (length h + i)%nat
  = Some (message_of_row row).
Proof.
  intros Hi. rewrite lookup_app_r by lia.
  replace (length h + i - length h)%nat with i by lia.
  rewrite lookup_app_l.
  - by rewrite list_lookup_fmap, Hi.
  - rewrite length_fmap. by eapply lookup_lt_Some.
Qed.

Lemma has_id_created (h : list obj) rows tl mid i row :
  rows !! i = Some row →
  has_id (h ++ (message_of_row <$> rows) ++ tl) mid (length h + i)
  = bool_decide (row_message_id row = mid).
Proof.
  intros Hi. unfold has_id. by rewrite (created_lookup _ _ _ _ _ Hi).
Qed.

Lemma created_seq_inv (h : list obj) (rows : list Row) r :
  r ∈ seq (length h) (length rows) →
  ∃ i row, r = (length h + i)%nat ∧ rows !! i = Some row.
Proof.
  rewrite elem_of_seq. intros [Hge Hlt].
  destruct (lookup_lt_is_Some_2 rows (r - length h)) as [row Hrow]; [lia|].
  exists (r - length h)%nat, row. split; [lia|done].
Qed.

Lemma matching_nil_iff (h : list obj) rows tl mid :
  filter (λ r, has_id (h ++ (message_of_row <$> rows) ++ tl) mid r = true)
         (seq (length h) (length rows)) = []
  ↔ Forall (λ row, row_message_id row ≠ mid) rows.
Proof.
  split.
  - intros Hnil. apply Forall_lookup. intros i row Hi Hid.
    apply (filter_nil_not_elem_of _ _ (length h + i)%nat Hnil).
    + rewrite (has_id_created _ _ _ _ _ _ Hi). by apply bool_decide_eq_true.
    + apply elem_of_seq. apply lookup_lt_Some in Hi. lia.
  - intros Hall.
    destruct (filter _ _) as [|r l] eqn:Hf; [done|].
    assert (r ∈ r :: l) as Hin by apply list_elem_of_here.
    rewrite <- Hf in Hin. apply list_elem_of_filter in Hin as [Hhas Hin].
    apply created_seq_inv in Hin as (i & row & -> & Hi).
    rewrite (has_id_created _ _ _ _ _ _ Hi) in Hhas.
    apply bool_decide_eq_true in Hhas.
    rewrite Forall_lookup in Hall. by destruct (Hall i row Hi).
Qed.

(** C1, as the code has it: the user that [with_id] returns holds the
    message proxies, so [edit_message] on the user proxy reaches
    [MessageProxy.edit] for every owned message with the identity asked
    for.  Each such message is appended, in order, to the dirty list of
    the message mapper and gets the new body; no other kind is touched and
    [new] is not; nothing is registered exactly when no row of the loaded
    result has that message identity. *)
Theorem C1_edit_message_registers_matching
    (w : world) (uid : Z) (p : UserProxy_t) (w1 : world)
    (mid : Z) (body : string) :
  UserRepository_with_id uid w = (Ok p, w1) →
  let created := seq (length (heap w)) (length (join_rows uid (txn w))) in
  let matching := filter (λ r, has_id (heap w1) mid r = true) created in
  ∃ w2,
    UserProxy_edit_message p mid body w1 = (Ok tt, w2)
    ∧ dirty w2
      = foldl (λ d r, setdefault_append KMessageMapper r d) (dirty w1) matching
    ∧ default [] (dict_get KMessageMapper (dirty w2))
      = default [] (dict_get KMessageMapper (dirty w1)) ++ matching
    ∧ (∀ k, k ≠ KMessageMapper → dict_get k (dirty w2) = dict_get k (dirty w1))
    ∧ new w2 = new w1
    ∧ (matching = [] ↔
       Forall (λ row, row_message_id row ≠ mid) (join_rows uid (txn w)))
    ∧ (∀ r, r ∈ matching →
         heap w2 !! r = Some (OMessage (mkMessage mid body))).
Proof.
  intros Hload.
  destruct (join_rows uid (txn w)) as [|row rows] eqn:Hrows.
  { by rewrite UserRepository_with_id_no_rows in Hload. }
  rewrite (UserRepository_with_id_run _ _ _ _ Hrows) in Hload.
  injection Hload as <- <-.
  set (user := mkUser _ _ _). set (all := row :: rows).
  set (h1 := heap w ++ (message_of_row <$> all) ++ [OUser user]).
  set (w1 := set_heap h1 w).
  assert (h1 !! (length (heap w) + length all)%nat = Some (OUser user)) as Huser.
  { unfold h1. rewrite app_assoc.
    rewrite <- (length_fmap message_of_row all), <- length_app.
    by rewrite list_lookup_middle. }
  assert (Forall (λ x, is_message (heap w1) (handle_ref x) = true)
            (proxies_from (length (heap w)) (length all))) as Hall.
  { apply Forall_forall. intros x Hx.
    apply (list_elem_of_fmap_2 handle_ref) in Hx.
    rewrite handle_ref_proxies_from in Hx.
    apply created_seq_inv in Hx as (i & row_i & -> & Hi).
    unfold is_message, w1, h1. cbn [heap set_heap].
    by rewrite (created_lookup _ _ _ _ _ Hi). }
  destruct (edit_loop_run mid body _ w1 Hall) as (H & Hrun & Hlen & Hpt).
  intros created matching.
  eexists. split.
  { unfold UserProxy_edit_message. cbn [_user].
    etransitivity; [exact (User_edit_message_run _ user mid body w1 Huser)|].
    exact Hrun. }
  cbn [dirty new heap set_dirty set_heap].
  rewrite dirtied_proxies_from.
  split; [done|]. split; [by apply foldl_setdefault_append_get|].
  split; [by intros; apply foldl_setdefault_append_get_ne|].
  split; [done|].
  split; [exact (matching_nil_iff (heap w) all [OUser user] mid)|].
  intros r [Hhas Hin]%list_elem_of_filter.
  change (has_id (heap w1) mid r = true) in Hhas.
  rewrite Hpt, handle_ref_proxies_from.
  rewrite bool_decide_eq_true_2 by done.
  by rewrite Hhas.
Qed.

Lemma C1_witness :
  ∃ w2,
    UserProxy_edit_message (mkUserProxy 3) 1 "new message body 1"
      (UserRepository_with_id 1 seeded_world).2 = (Ok tt, w2)
    ∧ dirty w2 = [(KMessageMapper, [0%nat])]
    ∧ heap w2 !! 0%nat = Some (OMessage (mkMessage 1 "new message body 1")).
Proof.
  destruct (C1_edit_message_registers_matching seeded_world 1 (mkUserProxy 3)
              (UserRepository_with_id 1 seeded_world).2 1 "new message body 1")
    as (w2 & Hrun & Hdirty & _ & _ & _ & _ & Hbody).
  - vm_compute. reflexivity.
  - exists w2. split; [exact Hrun|]. split.
    + rewrite Hdirty. vm_compute. reflexivity.
    + apply Hbody. vm_compute. apply list_elem_of_here.
Defined.

(** C1 as stated fails: in the seeded store, editing message 1 through
    the proxy of user 1 registers the message dirty. *)
Lemma C1_counterexample :
  ¬ (∀ w uid p w1 mid body r w2,
       UserRepository_with_id uid w = (Ok p, w1) →
       UserProxy_edit_message p mid body w1 = (r, w2) →
       dirty w2 = dirty w1).
Proof.
  intros Hclaim.
  pose proof (Hclaim seeded_world 1%Z (mkUserProxy 3)
                (UserRepository_with_id 1 seeded_world).2 1%Z "new message body 1"
                (UserProxy_edit_message (mkUserProxy 3) 1 "new message body 1"
                   (UserRepository_with_id 1 seeded_world).2).1
                (UserProxy_edit_message (mkUserProxy 3) 1 "new message body 1"
                   (UserRepository_with_id 1 seeded_world).2).2) as Hdirty.
  assert (dirty (UserProxy_edit_message (mkUserProxy 3) 1 "new message body 1"
                   (UserRepository_with_id 1 seeded_world).2).2
          = dirty (UserRepository_with_id 1 seeded_world).2) as Heq.
  { apply Hdirty; [by vm_compute | apply surjective_pairing]. }
  vm_compute in Heq. discriminate.
Qed.

(** * Further properties *)

(** ** Batched updates *)

Lemma executemany_snoc stmt params p db :
  executemany stmt (params ++ [p]) db = apply_update stmt p (executemany stmt params db).
Proof. unfold executemany. by rewrite foldl_snoc. Qed.

Lemma written_snoc params p id :
  written (params ++ [p]) id
  = if decide (p.2 = id) then Some p.1 else written params id.
Proof.
  unfold written. rewrite filter_app, filter_cons, filter_nil.
  destruct (decide (p.2 = id)).
  - by rewrite last_snoc.
  - by rewrite app_nil_r.
Qed.

Lemma executemany_messages_users params db :
  users (executemany UpdateMessagesBody params db) = users db.
Proof.
  induction params as [|p params IH] using rev_ind; [done|].
  by rewrite executemany_snoc.
Qed.

Lemma executemany_messages params db :
  messages (executemany UpdateMessagesBody params db)
  = (λ m, mkMessageRow (msg_id m)
            (default (msg_body m) (written params (msg_id m)))
            (msg_user_id m)) <$> messages db.
Proof.
  induction params as [|p params IH] using rev_ind.
  - simpl. induction (messages db) as [|[] ms IHm]; [done|].
    rewrite fmap_cons, <- IHm. done.
  - rewrite executemany_snoc. simpl. rewrite IH, <- list_fmap_compose.
    apply list_fmap_ext. intros i m _. simpl. rewrite written_snoc.
    by destruct (decide (msg_id m = p.2)) as [->|Hne];
      [rewrite decide_True | rewrite decide_False].
Qed.

Lemma executemany_users_messages params db :
  messages (executemany UpdateUsersName params db) = messages db.
Proof.
  induction params as [|p params IH] using rev_ind; [done|].
  by rewrite executemany_snoc.
Qed.

Lemma executemany_users params db id :
  users (executemany UpdateUsersName params db) !! id
  = (λ old, default old (written params id)) <$> users db !! id.
Proof.
  induction params as [|p params IH] using rev_ind.
  - simpl. by destruct (users db !! id).
  - rewrite executemany_snoc. simpl. rewrite written_snoc.
    destruct (decide (p.2 = id)) as [<-|Hne].
    + rewrite lookup_alter_eq, IH. by destruct (users db !! p.2).
    + by rewrite lookup_alter_ne.
Qed.

Lemma written_None params id :
  Forall (λ p, p.2 ≠ id) params → written params id = None.
Proof.
  intros Hall. unfold written.
  replace (filter (λ p, p.2 = id) params) with (@nil (string * Z)); [done|].
  symmetry. induction Hall as [|p params Hp _ IH]; [done|].
  by rewrite filter_cons_False.
Qed.

Lemma written_last a v id b :
  Forall (λ p, p.2 ≠ id) b → written (a ++ (v, id) :: b) id = Some v.
Proof.
  intros Hall. unfold written.
  rewrite filter_app, filter_cons_True by done.
  replace (filter (λ p, p.2 = id) b) with (@nil (string * Z)).
  - by rewrite last_snoc.
  - symmetry. induction Hall as [|p params Hp _ IH]; [done|].
    by rewrite filter_cons_False.
Qed.

Lemma message_params_app h a b :
  message_params h (a ++ b) = message_params h a ++ message_params h b.
Proof. unfold message_params. apply omap_app. Qed.

Lemma user_params_app h a b :
  user_params h (a ++ b) = user_params h a ++ user_params h b.
Proof. unfold user_params. apply omap_app. Qed.

Lemma message_params_keys h batch id :
  Forall (λ r, ∀ m, h !! r = Some (OMessage m) → _message_id m ≠ id) batch →
  Forall (λ p, p.2 ≠ id) (message_params h batch).
Proof.
  unfold message_params. induction 1 as [|r batch Hr _ IH]; simpl; [constructor|].
  destruct (h !! r) as [[m|u]|]; simpl; try done.
  constructor; [|done]. simpl. by apply Hr.
Qed.

Lemma user_params_keys h batch id :
  Forall (λ r, ∀ u, h !! r = Some (OUser u) → _user_id u ≠ id) batch →
  Forall (λ p, p.2 ≠ id) (user_params h batch).
Proof.
  unfold user_params. induction 1 as [|r batch Hr _ IH]; simpl; [constructor|].
  destruct (h !! r) as [[m|u]|]; simpl; try done.
  constructor; [|done]. simpl. by apply Hr.
Qed.

Lemma MessageMapper_update_all_run batch w :
  batch ≠ [] →
  forallb (is_message (heap w)) batch = true →
  MessageMapper_update_all batch w
  = (Ok tt,
     set_txn (executemany UpdateMessagesBody (message_params (heap w) batch) (txn w))
       (set_trace (trace w ++ [MapperCall MessageMapperObj m_update_all batch]) w)).
Proof.
  intros Hne Hty. unfold MessageMapper_update_all.
  rewrite (run_bind_ok _ _ _ _ _ (log_run _ w)).
  rewrite (run_bind_ok _ _ _ _ _ (collect_message_params batch (set_trace _ w) Hty)).
  rewrite Connection_execute_run; [done|].
  apply message_params_nonempty; [by destruct batch | done].
Qed.

Lemma MessageMapper_update_all_empty w :
  MessageMapper_update_all [] w
  = (Raise StatementError,
     set_trace (trace w ++ [MapperCall MessageMapperObj m_update_all []]) w).
Proof. reflexivity. Qed.

Lemma UserMapper_update_all_empty w :
  UserMapper_update_all [] w
  = (Raise StatementError,
     set_trace (trace w ++ [MapperCall UserMapperObj m_update_all []]) w).
Proof. reflexivity. Qed.

Lemma UserMapper_update_all_run batch w :
  batch ≠ [] →
  forallb (is_user (heap w)) batch = true →
  UserMapper_update_all batch w
  = (Ok tt,
     set_txn (executemany UpdateUsersName (user_params (heap w) batch) (txn w))
       (set_trace (trace w ++ [MapperCall UserMapperObj m_update_all batch]) w)).
Proof.
  intros Hne Hty. unfold UserMapper_update_all.
  rewrite (run_bind_ok _ _ _ _ _ (log_run _ w)).
  rewrite (run_bind_ok _ _ _ _ _ (collect_user_params batch (set_trace _ w) Hty)).
  rewrite Connection_execute_run; [done|].
  apply user_params_nonempty; [by destruct batch | done].
Qed.

(** X1: [MessageMapper.update_all] on a batch of messages.  With an
    empty batch the statement is executed without parameters and the call
    raises, writing nothing.  With a batch that is not empty it succeeds
    and writes the open transaction only: every row keeps its place, its
    identity and its owner; a row whose identity no message of the batch
    has is unchanged; a row whose identity a message of the batch has
    gets the body of the last such message in the batch.  No row is added
    or removed and the users are not touched. *)
Theorem X1_MessageMapper_update_all_writes (w : world) (batch : list ref) :
  forallb (is_message (heap w)) batch = true →
  (batch = [] →
   MessageMapper_update_all batch w
   = (Raise StatementError,
      set_trace (trace w ++ [MapperCall MessageMapperObj m_update_all []]) w))
  ∧ (batch ≠ [] →
  ∃ w',
    MessageMapper_update_all batch w = (Ok tt, w')
    ∧ trace w' = trace w ++ [MapperCall MessageMapperObj m_update_all batch]
    ∧ heap w' = heap w ∧ dirty w' = dirty w ∧ new w' = new w
    ∧ durable w' = durable w
    ∧ users (txn w') = users (txn w)
    ∧ length (messages (txn w')) = length (messages (txn w))
    ∧ ∀ i row, messages (txn w) !! i = Some row →
        ∃ body', messages (txn w') !! i
                 = Some (mkMessageRow (msg_id row) body' (msg_user_id row))
          ∧ (Forall (λ r, ∀ m, heap w !! r = Some (OMessage m) →
                           _message_id m ≠ msg_id row) batch →
             body' = msg_body row)
          ∧ (∀ pre r post m,
               batch = pre ++ r :: post →
               heap w !! r = Some (OMessage m) →
               _message_id m = msg_id row →
               Forall (λ r', ∀ m', heap w !! r' = Some (OMessage m') →
                                _message_id m' ≠ msg_id row) post →
               body' = _body m)).
Proof.
  intros Hty. split; [by intros ->|]. intros Hne.
  eexists. split; [by apply MessageMapper_update_all_run|].
  cbn [heap dirty new durable txn trace set_txn set_trace].
  repeat (split; [done|]).
  split; [by apply executemany_messages_users|].
  rewrite executemany_messages. split; [by rewrite length_fmap|].
  intros i row Hrow. eexists. split; [by rewrite list_lookup_fmap, Hrow|].
  split.
  - intros Hnone. by rewrite (written_None _ _ (message_params_keys _ _ _ Hnone)).
  - intros pre r post m -> Hr Hid Hpost.
    rewrite message_params_app. unfold message_params at 2. simpl.
    rewrite Hr. simpl. fold (message_params (heap w) post).
    rewrite Hid.
    by rewrite (written_last _ _ _ _ (message_params_keys _ _ _ Hpost)).
Qed.

Lemma X1_witness :
  ∃ w', MessageMapper_update_all [0%nat] world_without_user_mapper = (Ok tt, w')
        ∧ users (txn w') = users (txn world_without_user_mapper).
Proof.
  destruct (X1_MessageMapper_update_all_writes world_without_user_mapper [0%nat])
    as [_ Hwrites].
  - reflexivity.
  - destruct Hwrites as (w' & Hrun & _ & _ & _ & _ & _ & Husers & _); [done|].
    exists w'. by split.
Defined.

(** X2: [UserMapper.update_all] on a batch of users.  With an empty
    batch the statement is executed without parameters and the call
    raises, writing nothing.  With a batch that is not empty it succeeds
    and writes the open transaction only.  It never inserts: an identity
    absent from the table stays absent.  A user row whose identity no
    user of the batch has keeps its name; otherwise it gets the name of
    the last user of the batch with that identity.  The messages are not
    touched. *)
Theorem X2_UserMapper_update_all_writes (w : world) (batch : list ref) :
  forallb (is_user (heap w)) batch = true →
  (batch = [] →
   UserMapper_update_all batch w
   = (Raise StatementError,
      set_trace (trace w ++ [MapperCall UserMapperObj m_update_all []]) w))
  ∧ (batch ≠ [] →
  ∃ w',
    UserMapper_update_all batch w = (Ok tt, w')
    ∧ trace w' = trace w ++ [MapperCall UserMapperObj m_update_all batch]
    ∧ heap w' = heap w ∧ dirty w' = dirty w ∧ new w' = new w
    ∧ durable w' = durable w
    ∧ messages (txn w') = messages (txn w)
    ∧ (∀ id, users (txn w) !! id = None → users (txn w') !! id = None)
    ∧ ∀ id old, users (txn w) !! id = Some old →
        ∃ name', users (txn w') !! id = Some name'
          ∧ (Forall (λ r, ∀ u, heap w !! r = Some (OUser u) → _user_id u ≠ id)
               batch →
             name' = old)
          ∧ (∀ pre r post u,
               batch = pre ++ r :: post →
               heap w !! r = Some (OUser u) →
               _user_id u = id →
               Forall (λ r', ∀ u', heap w !! r' = Some (OUser u') →
                                _user_id u' ≠ id) post →
               name' = _name u)).
Proof.
  intros Hty. split; [by intros ->|]. intros Hne.
  eexists. split; [by apply UserMapper_update_all_run|].
  cbn [heap dirty new durable txn trace set_txn set_trace].
  repeat (split; [done|]).
  split; [by apply executemany_users_messages|].
  split; [by intros id Hid; rewrite executemany_users, Hid|].
  intros id old Hold. eexists. split; [by rewrite executemany_users, Hold|].
  split.
  - intros Hnone. by rewrite (written_None _ _ (user_params_keys _ _ _ Hnone)).
  - intros pre r post u -> Hr Hid Hpost.
    rewrite user_params_app. unfold user_params at 2. simpl.
    rewrite Hr. simpl. fold (user_params (heap w) post).
    rewrite Hid.
    by rewrite (written_last _ _ _ _ (user_params_keys _ _ _ Hpost)).
Qed.

Lemma X2_witness :
  ∃ w', UserMapper_update_all [1%nat] world_without_user_mapper = (Ok tt, w')
        ∧ messages (txn w') = messages (txn world_without_user_mapper).
Proof.
  destruct (X2_UserMapper_update_all_writes world_without_user_mapper [1%nat])
    as [_ Hwrites].
  - reflexivity.
  - destruct Hwrites as (w' & Hrun & _ & _ & _ & _ & _ & Hmsgs & _); [done|].
    exists w'. by split.
Defined.

Lemma collect_user_params_raise (d : list ref) w :
  Forall (λ r, is_Some (heap w !! r)) d →
  forallb (is_user (heap w)) d = false →
  collect d (λ user,
    name ← User_name user; user_id ← User_user_id user; mret (name, user_id)) w
  = (Raise (AttributeError "name"), w).
Proof.
  induction 1 as [|r d [o Hr] _ IH]; simpl; [done|].
  unfold is_user at 1. rewrite Hr.
  rewrite !run_bind. unfold User_name at 1, User_user_id at 1.
  rewrite !run_bind. unfold deref. rewrite Hr.
  destruct o as [m|u]; [done|]. simpl. intros Hd.
  rewrite !run_bind, Hr. simpl. by rewrite run_bind, (IH Hd).
Qed.

Lemma collect_message_params_raise (d : list ref) w :
  Forall (λ r, is_Some (heap w !! r)) d →
  forallb (is_message (heap w)) d = false →
  collect d (λ message,
    body ← Message_body message; message_id ← Message_message_id message;
    mret (body, message_id)) w
  = (Raise (AttributeError "body"), w).
Proof.
  induction 1 as [|r d [o Hr] _ IH]; simpl; [done|].
  unfold is_message at 1. rewrite Hr.
  rewrite !run_bind. unfold Message_body at 1, Message_message_id at 1.
  rewrite !run_bind. unfold deref. rewrite Hr.
  destruct o as [m|u]; [|done]. simpl. intros Hd.
  rewrite !run_bind, Hr. simpl. by rewrite run_bind, (IH Hd).
Qed.

(** X3: [update_all] reads every entity of the batch before it executes
    its statement.  When some entity of the batch is an object of the
    other class, the call raises the [AttributeError] of the first
    attribute it reads and writes no row at all, not even for the
    entities before the offending one. *)
Theorem X3_update_all_wrong_class_writes_nothing
    (m : mapper_instance) (batch : list ref) (w : world) :
  Forall (λ r, is_Some (heap w !! r)) batch →
  forallb (flushes m (heap w)) batch = false →
  update_all (VMapper m) batch w
  = (Raise (AttributeError (first_attr m)),
     set_trace (trace w ++ [MapperCall m m_update_all batch]) w).
Proof.
  intros Hlive Hbad. destruct m; simpl in *.
  - unfold UserMapper_update_all.
    rewrite (run_bind_ok _ _ _ _ _ (log_run _ w)).
    by rewrite (run_bind_raise _ _ _ _ _
                  (collect_user_params_raise batch (set_trace _ w) Hlive Hbad)).
  - unfold MessageMapper_update_all.
    rewrite (run_bind_ok _ _ _ _ _ (log_run _ w)).
    by rewrite (run_bind_raise _ _ _ _ _
                  (collect_message_params_raise batch (set_trace _ w) Hlive Hbad)).
Qed.

Lemma X3_witness :
  update_all (VMapper MessageMapperObj) [0%nat; 1%nat] world_without_user_mapper
  = (Raise (AttributeError "body"),
     set_trace (trace world_without_user_mapper
                ++ [MapperCall MessageMapperObj m_update_all [0%nat; 1%nat]])
       world_without_user_mapper).
Proof.
  apply (X3_update_all_wrong_class_writes_nothing MessageMapperObj
           [0%nat; 1%nat] world_without_user_mapper).
  - repeat constructor; by eexists.
  - reflexivity.
Defined.

(** ** The outcome of commit *)

Lemma UnitOfWork_commit_run w :
  UnitOfWork_commit w =
  match for_each (dirty w) flush w with
  | (Ok _, w1) =>
      (Ok tt, set_durable (txn w1) (set_trace (trace w1 ++ [ConnectionCommit]) w1))
  | (Raise e, w1) => (Raise e, w1)
  end.
Proof.
  unfold UnitOfWork_commit. rewrite run_bind. simpl. rewrite run_bind.
  by destruct (for_each (dirty w) flush w) as [[[]|e] w1].
Qed.

(** X4: when every batch of the dirty map is well typed, [commit]
    succeeds: it calls [update_all] once per kind, in the iteration order
    of the map, on the mapper registered for the kind and with the whole
    list of the kind, then commits the transaction, so that everything
    the batches wrote is durable.  Objects, registry and both maps of the
    unit of work are as before. *)
Theorem X4_commit_flushes_every_batch (w : world) :
  forallb (well_typed_batch w) (dirty w) = true →
  ∃ w' calls,
    UnitOfWork_commit w = (Ok tt, w')
    ∧ trace w' = trace w ++ calls ++ [ConnectionCommit]
    ∧ Forall2 (λ item call, ∃ m, mappers w !! item.1 = Some (VMapper m)
                                 ∧ call = MapperCall m m_update_all item.2)
              (dirty w) calls
    ∧ txn w' = foldl (λ db item, batch_update w item db) (txn w) (dirty w)
    ∧ durable w' = txn w'
    ∧ heap w' = heap w ∧ mappers w' = mappers w
    ∧ dirty w' = dirty w ∧ new w' = new w.
Proof.
  intros Hty. eexists _, (omap (dispatched w) (dirty w)).
  split.
  { rewrite UnitOfWork_commit_run, (flush_all_well_typed _ _ Hty). reflexivity. }
  cbn [trace txn durable heap mappers dirty new set_durable set_trace set_txn].
  split; [by rewrite <- app_assoc|].
  split; [by apply dispatched_well_typed|]. done.
Qed.

(** X5: whatever the dirty map holds, [commit] calls nothing but
    [update_all]; when it returns, the connection was committed last and
    the durable store is what the transaction saw; when it raises, the
    connection was never committed and the durable store is as before. *)
Theorem X5_commit_durable_only_on_success (w : world) :
  ∃ calls,
    forallb is_update_all calls = true
    ∧ match (UnitOfWork_commit w).1 with
      | Ok _ =>
          trace (UnitOfWork_commit w).2 = trace w ++ calls ++ [ConnectionCommit]
          ∧ durable (UnitOfWork_commit w).2 = txn (UnitOfWork_commit w).2
      | Raise _ =>
          trace (UnitOfWork_commit w).2 = trace w ++ calls
          ∧ durable (UnitOfWork_commit w).2 = durable w
      end.
Proof.
  pose proof (flush_all_preserves durable ltac:(done) ltac:(done) (dirty w) w) as Hdur.
  destruct (flush_all_uniform is_update_all ltac:(done) (dirty w) w w ltac:(done))
    as (_ & _ & (calls & Htr & _ & Hcalls) & _).
  exists calls. split; [done|].
  rewrite UnitOfWork_commit_run.
  destruct (for_each (dirty w) flush w) as [[[]|e] w1]; simpl in *.
  - by rewrite Htr, <- app_assoc.
  - done.
Qed.

Lemma X4_witness :
  ∃ w', UnitOfWork_commit world_with_both_mappers = (Ok tt, w')
        ∧ durable w' = txn w'.
Proof.
  destruct (X4_commit_flushes_every_batch world_with_both_mappers)
    as (w' & calls & Hrun & _ & _ & _ & Hdur & _).
  - vm_compute. reflexivity.
  - exists w'. by split.
Defined.

(** ** Mutations through the proxies *)

Lemma MessageProxy_edit_run p body w m :
  heap w !! _message p = Some (OMessage m) →
  MessageProxy_edit p body w
  = (Ok tt,
     set_heap (<[_message p:=OMessage (mkMessage (_message_id m) body)]> (heap w))
       (set_dirty (setdefault_append KMessageMapper (_message p) (dirty w)) w)).
Proof. intros Hm. exact (edit_of_run (Proxied p) body w m Hm). Qed.

Lemma default_last_cons {A} (x b : A) l :
  default x (last (b :: l)) = default b (last l).
Proof. rewrite last_cons. by destruct (last l). Qed.

Lemma MessageProxy_edits_run p bodies w m :
  heap w !! _message p = Some (OMessage m) →
  for_each bodies (MessageProxy_edit p) w
  = (Ok tt,
     set_heap (<[_message p:=OMessage (mkMessage (_message_id m)
                                          (default (_body m) (last bodies)))]>
                 (heap w))
       (set_dirty (foldl (λ d r, setdefault_append KMessageMapper r d) (dirty w)
                     (replicate (length bodies) (_message p))) w)).
Proof.
  revert w m. induction bodies as [|b bodies IH]; intros w m Hm.
  - simpl. rewrite list_insert_id by by destruct m.
    unfold set_heap, set_dirty. simpl. by rewrite world_eta.
  - cbn [for_each]. rewrite (run_bind_ok _ _ _ _ _ (MessageProxy_edit_run p b w m Hm)).
    rewrite (IH _ (mkMessage (_message_id m) b)).
    + rewrite default_last_cons. unfold set_heap, set_dirty. simpl.
      by rewrite list_insert_insert_eq.
    + cbn [heap set_heap]. apply list_lookup_insert_eq. by eapply lookup_lt_Some.
Qed.

Lemma message_params_replicate h r m n :
  h !! r = Some (OMessage m) →
  message_params h (replicate n r) = replicate n (_body m, _message_id m).
Proof.
  intros Hr. induction n as [|n IH]; [done|].
  change (replicate (S n) r) with ([r] ++ replicate n r).
  rewrite message_params_app, IH. unfold message_params. simpl. by rewrite Hr.
Qed.

(** X6: editing one message [n] times through its proxy never fails and
    registers it [n] times: the dirty list of the message mapper grows by
    [n] occurrences of the raw message and no other kind changes.  The
    message keeps its identity and ends with the last body; no other
    object changes.  As the dirty list holds the message itself, each of
    the [n] parameter sets a flush builds carries that last body. *)
Theorem X6_MessageProxy_edit_repeated
    (w : world) (p : MessageProxy_t) (m : Message_t) (bodies : list string) :
  heap w !! _message p = Some (OMessage m) →
  ∃ w',
    for_each bodies (MessageProxy_edit p) w = (Ok tt, w')
    ∧ default [] (dict_get KMessageMapper (dirty w'))
      = default [] (dict_get KMessageMapper (dirty w))
        ++ replicate (length bodies) (_message p)
    ∧ (∀ k, k ≠ KMessageMapper → dict_get k (dirty w') = dict_get k (dirty w))
    ∧ heap w' !! _message p
      = Some (OMessage (mkMessage (_message_id m) (default (_body m) (last bodies))))
    ∧ (∀ r, r ≠ _message p → heap w' !! r = heap w !! r)
    ∧ new w' = new w ∧ txn w' = txn w ∧ durable w' = durable w
    ∧ trace w' = trace w
    ∧ message_params (heap w') (replicate (length bodies) (_message p))
      = replicate (length bodies)
          (default (_body m) (last bodies), _message_id m).
Proof.
  intros Hm. eexists. split; [by apply MessageProxy_edits_run|].
  cbn [heap dirty new txn durable trace set_heap set_dirty].
  assert (<[_message p:=OMessage (mkMessage (_message_id m)
                                    (default (_body m) (last bodies)))]> (heap w)
          !! _message p
          = Some (OMessage (mkMessage (_message_id m) (default (_body m) (last bodies)))))
    as Hnew by (apply list_lookup_insert_eq; by eapply lookup_lt_Some).
  split; [by apply foldl_setdefault_append_get|].
  split; [by intros; apply foldl_setdefault_append_get_ne|].
  split; [done|].
  split; [by intros r Hr; apply list_lookup_insert_ne|].
  repeat (split; [done|]).
  by rewrite (message_params_replicate _ _ _ _ Hnew).
Qed.

Lemma X6_witness :
  ∃ w',
    for_each ["first"; "second"] (MessageProxy_edit (mkMessageProxy 0)) fresh_world
    = (Ok tt, w')
    ∧ heap w' !! 0%nat = Some (OMessage (mkMessage 1 "second")).
Proof.
  destruct (X6_MessageProxy_edit_repeated fresh_world (mkMessageProxy 0)
              (mkMessage 1 "body 1") ["first"; "second"])
    as (w' & Hrun & _ & _ & Hbody & _).
  - reflexivity.
  - exists w'. by split.
Defined.

Lemma last_replicate_S {A} (x : A) n : last (replicate (S n) x) = Some x.
Proof.
  induction n as [|n IH]; [done|].
  change (replicate (S (S n)) x) with (x :: replicate (S n) x).
  by rewrite last_cons, IH.
Qed.

Lemma written_replicate n v id id' :
  written (replicate (S n) (v, id)) id' = if decide (id = id') then Some v else None.
Proof.
  destruct (decide (id = id')) as [<-|Hne].
  - unfold written.
    replace (filter (λ p, p.2 = id) (replicate (S n) (v, id)))
      with (replicate (S n) (v, id)); [by rewrite last_replicate_S|].
    generalize (S n). intros k. induction k as [|k IH]; [done|].
    simpl. rewrite filter_cons_True by done. by rewrite <- IH.
  - apply written_None. apply Forall_forall.
    intros p' Hp'%elem_of_replicate. destruct Hp' as [-> _]. done.
Qed.

Lemma forallb_replicate {A} (f : A → bool) x n :
  f x = true → forallb f (replicate n x) = true.
Proof. intros Hx. induction n as [|n IH]; [done|]. simpl. by rewrite Hx, IH. Qed.

(** X7: with a unit of work that holds nothing yet and a message mapper
    registered, editing a message through its proxy one or more times and
    then committing succeeds and makes the last body durable: every
    stored message with the identity of the edited one has that body,
    every other row and every user is as the transaction saw it.  The
    dirty map still holds the message, once per edit. *)
Theorem X7_edit_then_commit_persists
    (w : world) (p : MessageProxy_t) (m : Message_t)
    (b : string) (bs : list string) :
  heap w !! _message p = Some (OMessage m) →
  dirty w = [] →
  mappers w !! KMessageMapper = Some (VMapper MessageMapperObj) →
  ∃ w',
    (for_each (b :: bs) (MessageProxy_edit p) ;; UnitOfWork_commit) w = (Ok tt, w')
    ∧ messages (durable w')
      = (λ row, if decide (msg_id row = _message_id m)
                then mkMessageRow (msg_id row) (default b (last bs)) (msg_user_id row)
                else row) <$> messages (txn w)
    ∧ users (durable w') = users (txn w)
    ∧ txn w' = durable w'
    ∧ dirty w' = [(KMessageMapper, replicate (S (length bs)) (_message p))].
Proof.
  intros Hm Hdirty Hmapper.
  rewrite (run_bind_ok _ _ _ _ _ (MessageProxy_edits_run p (b :: bs) w m Hm)).
  rewrite default_last_cons, Hdirty.
  set (body' := default b (last bs)).
  set (h1 := <[_message p:=OMessage (mkMessage (_message_id m) body')]> (heap w)).
  assert (h1 !! _message p = Some (OMessage (mkMessage (_message_id m) body')))
    as Hnew by (apply list_lookup_insert_eq; by eapply lookup_lt_Some).
  assert (foldl (λ d r, setdefault_append KMessageMapper r d) []
            (replicate (length (b :: bs)) (_message p))
          = [(KMessageMapper, replicate (S (length bs)) (_message p))]) as ->.
  { change (foldl (λ d r, setdefault_append KMessageMapper r d)
              [(KMessageMapper, [_message p])] (replicate (length bs) (_message p))
            = [(KMessageMapper, replicate (S (length bs)) (_message p))]).
    by rewrite foldl_setdefault_append_single. }
  set (w1 := set_heap h1 _).
  assert (forallb (well_typed_batch w1) (dirty w1) = true) as Hty.
  { simpl. unfold well_typed_batch. simpl. rewrite Hmapper.
    rewrite andb_true_r.
    change (forallb (is_message h1) (replicate (S (length bs)) (_message p)) = true).
    apply forallb_replicate. unfold is_message. by rewrite Hnew. }
  eexists. split.
  { rewrite UnitOfWork_commit_run, (flush_all_well_typed _ _ Hty). reflexivity. }
  cbn [durable txn dirty set_durable set_trace set_txn set_heap set_dirty w1 foldl].
  unfold batch_update. cbn [mappers heap set_heap set_dirty fst snd w1].
  rewrite Hmapper, (message_params_replicate _ _ _ _ Hnew).
  split; [|split; [by apply executemany_messages_users|done]].
  rewrite executemany_messages. apply list_fmap_ext. intros i row _.
  cbn [_body _message_id]. rewrite written_replicate.
  destruct (decide (_message_id m = msg_id row)) as [Heq|Hne].
  - by rewrite decide_True.
  - rewrite decide_False by done. by destruct row.
Qed.

Lemma X7_witness :
  ∃ w',
    (for_each ["first"; "second"] (MessageProxy_edit (mkMessageProxy 0)) ;;
     UnitOfWork_commit) fresh_world = (Ok tt, w')
    ∧ messages (durable w') = [mkMessageRow 1 "second" (Some 1%Z)].
Proof.
  destruct (X7_edit_then_commit_persists fresh_world (mkMessageProxy 0)
              (mkMessage 1 "body 1") "first" ["second"])
    as (w' & Hrun & Hmsgs & _).
  - reflexivity.
  - reflexivity.
  - vm_compute. reflexivity.
  - exists w'. split; [exact Hrun|]. rewrite Hmsgs. vm_compute. reflexivity.
Defined.

Lemma UserProxy_rename_run p name w u :
  heap w !! _user p = Some (OUser u) →
  UserProxy_rename p name w
  = (Ok tt,
     set_heap (<[_user p:=OUser (mkUser (_user_id u) name (_messages u))]> (heap w))
       (set_dirty (setdefault_append KUserMapper (_user p) (dirty w)) w)).
Proof.
  intros Hu. unfold UserProxy_rename. rewrite run_bind. simpl.
  unfold User_rename. rewrite run_bind. unfold deref. simpl. by rewrite Hu.
Qed.

(** X8: with a unit of work that holds nothing yet and a user mapper
    registered, renaming a user through its proxy and committing succeeds
    and makes the new name durable under the identity of the user (when
    the table has that identity; no row is inserted otherwise).  The user
    keeps its identity and its messages, no message row changes, and the
    dirty map still holds the user. *)
Theorem X8_rename_then_commit_persists
    (w : world) (p : UserProxy_t) (u : User_t) (name : string) :
  heap w !! _user p = Some (OUser u) →
  dirty w = [] →
  mappers w !! KUserMapper = Some (VMapper UserMapperObj) →
  ∃ w',
    (UserProxy_rename p name ;; UnitOfWork_commit) w = (Ok tt, w')
    ∧ users (durable w') = alter (λ _, name) (_user_id u) (users (txn w))
    ∧ messages (durable w') = messages (txn w)
    ∧ txn w' = durable w'
    ∧ heap w' !! _user p = Some (OUser (mkUser (_user_id u) name (_messages u)))
    ∧ dirty w' = [(KUserMapper, [_user p])].
Proof.
  intros Hu Hdirty Hmapper.
  rewrite (run_bind_ok _ _ _ _ _ (UserProxy_rename_run p name w u Hu)), Hdirty.
  set (h1 := <[_user p:=OUser (mkUser (_user_id u) name (_messages u))]> (heap w)).
  assert (h1 !! _user p = Some (OUser (mkUser (_user_id u) name (_messages u))))
    as Hnew by (apply list_lookup_insert_eq; by eapply lookup_lt_Some).
  change (setdefault_append KUserMapper (_user p) [])
    with [(KUserMapper, [_user p])].
  set (w1 := set_heap h1 _).
  assert (forallb (well_typed_batch w1) (dirty w1) = true) as Hty.
  { simpl. unfold well_typed_batch. simpl. rewrite Hmapper. simpl.
    unfold is_user. change (heap w1) with h1. by rewrite Hnew. }
  eexists. split.
  { rewrite UnitOfWork_commit_run, (flush_all_well_typed _ _ Hty). reflexivity. }
  cbn [durable txn dirty heap set_durable set_trace set_txn set_heap set_dirty w1 foldl].
  unfold batch_update. cbn [mappers heap set_heap set_dirty fst snd w1].
  rewrite Hmapper. unfold user_params. simpl. rewrite Hnew. simpl.
  done.
Qed.

Lemma X8_witness :
  ∃ w',
    (UserProxy_rename (mkUserProxy 1) "robert" ;; UnitOfWork_commit) fresh_world
    = (Ok tt, w')
    ∧ users (durable w') !! 1%Z = Some "robert".
Proof.
  destruct (X8_rename_then_commit_persists fresh_world (mkUserProxy 1)
              (mkUser 1 "bob" [RawMessage 0%nat]) "robert")
    as (w' & Hrun & Husers & _).
  - reflexivity.
  - reflexivity.
  - vm_compute. reflexivity.
  - exists w'. split; [exact Hrun|]. rewrite Husers. vm_compute. reflexivity.
Defined.

Lemma Message_body_run r w m :
  heap w !! r = Some (OMessage m) → Message_body r w = (Ok (_body m), w).
Proof. intros Hr. unfold Message_body. rewrite run_bind. unfold deref. by rewrite Hr. Qed.

Lemma Message_message_id_run r w m :
  heap w !! r = Some (OMessage m) → Message_message_id r w = (Ok (_message_id m), w).
Proof.
  intros Hr. unfold Message_message_id. rewrite run_bind. unfold deref. by rewrite Hr.
Qed.

Lemma User_name_run r w u :
  heap w !! r = Some (OUser u) → User_name r w = (Ok (_name u), w).
Proof. intros Hr. unfold User_name. rewrite run_bind. unfold deref. by rewrite Hr. Qed.

Lemma User_user_id_run r w u :
  heap w !! r = Some (OUser u) → User_user_id r w = (Ok (_user_id u), w).
Proof. intros Hr. unfold User_user_id. rewrite run_bind. unfold deref. by rewrite Hr. Qed.

(** X9: the read accessors of a message proxy return what the wrapped
    message holds and change nothing, in particular they register
    nothing; read after an [edit] through the proxy, [body] is the body
    just given and [message_id] is the identity the message had. *)
Theorem X9_MessageProxy_read_after_edit
    (w : world) (p : MessageProxy_t) (m : Message_t) (body : string) :
  heap w !! _message p = Some (OMessage m) →
  MessageProxy_body p w = (Ok (_body m), w)
  ∧ MessageProxy_message_id p w = (Ok (_message_id m), w)
  ∧ ((MessageProxy_edit p body ;; MessageProxy_body p) w).1 = Ok body
  ∧ ((MessageProxy_edit p body ;; MessageProxy_message_id p) w).1
    = Ok (_message_id m).
Proof.
  intros Hm.
  assert (<[_message p:=OMessage (mkMessage (_message_id m) body)]> (heap w)
          !! _message p
          = Some (OMessage (mkMessage (_message_id m) body))) as Hnew
    by (apply list_lookup_insert_eq; by eapply lookup_lt_Some).
  unfold MessageProxy_body, MessageProxy_message_id.
  split; [by apply Message_body_run|].
  split; [by apply Message_message_id_run|].
  rewrite !(run_bind_ok _ _ _ _ _ (MessageProxy_edit_run p body w m Hm)).
  split.
  - by erewrite Message_body_run by exact Hnew.
  - by erewrite Message_message_id_run by exact Hnew.
Qed.

Lemma X9_witness :
  ((MessageProxy_edit (mkMessageProxy 0) "edited" ;;
    MessageProxy_body (mkMessageProxy 0)) fresh_world).1 = Ok "edited".
Proof.
  apply (X9_MessageProxy_read_after_edit fresh_world (mkMessageProxy 0)
           (mkMessage 1 "body 1") "edited").
  reflexivity.
Defined.

(** X10: the read accessors of a user proxy return what the wrapped user
    holds and change nothing; read after a [rename] through the proxy,
    [name] is the new name and [user_id] is the identity the user had. *)
Theorem X10_UserProxy_read_after_rename
    (w : world) (p : UserProxy_t) (u : User_t) (name : string) :
  heap w !! _user p = Some (OUser u) →
  UserProxy_name p w = (Ok (_name u), w)
  ∧ UserProxy_user_id p w = (Ok (_user_id u), w)
  ∧ ((UserProxy_rename p name ;; UserProxy_name p) w).1 = Ok name
  ∧ ((UserProxy_rename p name ;; UserProxy_user_id p) w).1 = Ok (_user_id u).
Proof.
  intros Hu.
  assert (<[_user p:=OUser (mkUser (_user_id u) name (_messages u))]> (heap w)
          !! _user p
          = Some (OUser (mkUser (_user_id u) name (_messages u)))) as Hnew
    by (apply list_lookup_insert_eq; by eapply lookup_lt_Some).
  unfold UserProxy_name, UserProxy_user_id.
  split; [by apply User_name_run|].
  split; [by apply User_user_id_run|].
  rewrite !(run_bind_ok _ _ _ _ _ (UserProxy_rename_run p name w u Hu)).
  split.
  - by erewrite User_name_run by exact Hnew.
  - by erewrite User_user_id_run by exact Hnew.
Qed.

Lemma X10_witness :
  ((UserProxy_rename (mkUserProxy 1) "robert" ;;
    UserProxy_name (mkUserProxy 1)) fresh_world).1 = Ok "robert".
Proof.
  apply (X10_UserProxy_read_after_rename fresh_world (mkUserProxy 1)
           (mkUser 1 "bob" [RawMessage 0%nat]) "robert").
  reflexivity.
Defined.

(** ** The use case, the registry and the dirty map *)

(** X11: when user 1 is missing or owns no message, [Interactor.execute]
    stops at the load with the [UnboundLocalError] of [_load]; nothing
    was created, nothing registered, no mapper called and nothing
    committed. *)
Theorem X11_Interactor_execute_without_rows (w : world) :
  users (txn w) !! 1%Z = None
  ∨ Forall (λ m, msg_user_id m ≠ Some 1%Z) (messages (txn w)) →
  Interactor_execute w = (Raise (UnboundLocalError "row"), w).
Proof.
  intros Hnone%join_rows_empty. unfold Interactor_execute.
  by rewrite (run_bind_raise _ _ _ _ _ (UserRepository_with_id_no_rows 1 w Hnone)).
Qed.

Lemma X11_witness :
  Interactor_execute initial_world = (Raise (UnboundLocalError "row"), initial_world).
Proof.
  apply (X11_Interactor_execute_without_rows initial_world).
  left. reflexivity.
Defined.

(** X12: registrations under different kinds do not interfere: they can
    be made in either order with the same registry as a result, and
    registering one kind does not change what [get] answers for another. *)
Theorem X12_register_mapper_independent
    (w : world) (k1 k2 : mapper_type) (v1 v2 : value) :
  k1 ≠ k2 →
  (Registry_register_mapper k1 v1 ;; Registry_register_mapper k2 v2) w
  = (Registry_register_mapper k2 v2 ;; Registry_register_mapper k1 v1) w
  ∧ ((Registry_register_mapper k2 v2 ;; Registry_get k1) w).1
    = (Registry_get k1 w).1.
Proof.
  intros Hne. split.
  - rewrite !run_bind. unfold Registry_register_mapper, modify, set_mappers.
    cbn [mappers heap new dirty txn durable trace stdout].
    by rewrite insert_insert_ne.
  - rewrite run_bind. unfold Registry_register_mapper, modify.
    rewrite !Registry_get_run. cbn [mappers set_mappers fst].
    rewrite lookup_insert_ne by done.
    by destruct (truthy _).
Qed.

Lemma X12_witness :
  ((Registry_register_mapper KUserMapper (VMapper UserMapperObj) ;;
    Registry_get KMessageMapper) initial_world).1
  = (Registry_get KMessageMapper initial_world).1.
Proof.
  apply (X12_register_mapper_independent initial_world KMessageMapper KUserMapper
           VNone (VMapper UserMapperObj)).
  discriminate.
Defined.

Lemma setdefault_append_wf k e (d : dict (list ref)) :
  dict_wf d →
  dict_wf (setdefault_append k e d)
  ∧ (setdefault_append k e d).*1
    = if decide (k ∈ d.*1) then d.*1 else d.*1 ++ [k].
Proof.
  intros [Hnodup Hne].
  assert ((setdefault_append k e d).*1
          = if decide (k ∈ d.*1) then d.*1 else d.*1 ++ [k]) as Hkeys.
  { destruct (decide (k ∈ d.*1)) as [Hin|Hnotin].
    - apply setdefault_append_keys.
      destruct (dict_get k d) eqn:Hget; [done|].
      by apply dict_get_None_notin in Hget.
    - apply dict_get_None_notin in Hnotin.
      rewrite (setdefault_append_absent _ _ _ Hnotin).
      by rewrite fmap_app. }
  split; [|done]. split; [|by apply setdefault_append_nonempty].
  rewrite Hkeys. destruct (decide (k ∈ d.*1)) as [Hin|Hnotin]; [done|].
  apply NoDup_app. split; [done|]. split; [|apply NoDup_singleton].
  intros x Hx ->%list_elem_of_singleton. done.
Qed.

(** X13: registration keeps both maps of the unit of work well-formed
    dictionaries (kinds pairwise distinct, no empty list) and fixes their
    iteration order: a kind registered for the first time goes last, a
    kind already present keeps its place. *)
Theorem X13_registration_keeps_maps_well_formed
    (w : world) (k : mapper_type) (e : ref) :
  dict_wf (dirty w) → dict_wf (new w) →
  dict_wf (dirty (UnitOfWork_register_dirty k e w).2)
  ∧ (dirty (UnitOfWork_register_dirty k e w).2).*1
    = (if decide (k ∈ (dirty w).*1) then (dirty w).*1 else (dirty w).*1 ++ [k])
  ∧ new (UnitOfWork_register_dirty k e w).2 = new w
  ∧ dict_wf (new (UnitOfWork_register_new k e w).2)
  ∧ (new (UnitOfWork_register_new k e w).2).*1
    = (if decide (k ∈ (new w).*1) then (new w).*1 else (new w).*1 ++ [k])
  ∧ dirty (UnitOfWork_register_new k e w).2 = dirty w.
Proof.
  intros Hdirty Hnew. simpl.
  destruct (setdefault_append_wf k e _ Hdirty) as [? ?].
  destruct (setdefault_append_wf k e _ Hnew) as [? ?].
  done.
Qed.

Lemma X13_witness :
  dict_wf (dirty (UnitOfWork_register_dirty KUserMapper 1%nat fresh_world).2).
Proof.
  apply (X13_registration_keeps_maps_well_formed fresh_world KUserMapper 1%nat).
  - split; constructor.
  - split; constructor.
Defined.

(** ** Loading twice *)

Lemma proxies_from_refs s n x :
  x ∈ proxies_from s n → (s ≤ handle_ref x < s + n)%nat.
Proof.
  intros Hx. apply (list_elem_of_fmap_2 handle_ref) in Hx.
  rewrite handle_ref_proxies_from in Hx. by apply elem_of_seq in Hx.
Qed.

(** X14: there is no identity map.  Loading the same user twice creates
    two aggregates: the second load leaves every object of the first as
    it was, returns the proxy of another user object with the same
    identity and name, and the messages of the two users are different
    objects. *)
Theorem X14_with_id_twice_builds_distinct_aggregates
    (w : world) (uid : Z) (row : Row) (rows : list Row) :
  join_rows uid (txn w) = row :: rows →
  ∃ p1 w1 p2 w2 u1 u2,
    UserRepository_with_id uid w = (Ok p1, w1)
    ∧ UserRepository_with_id uid w1 = (Ok p2, w2)
    ∧ _user p1 ≠ _user p2
    ∧ (∀ r, (r < length (heap w1))%nat → heap w2 !! r = heap w1 !! r)
    ∧ heap w2 !! _user p1 = Some (OUser u1)
    ∧ heap w2 !! _user p2 = Some (OUser u2)
    ∧ _user_id u1 = _user_id u2 ∧ _name u1 = _name u2
    ∧ length (_messages u1) = length (_messages u2)
    ∧ ∀ x y, x ∈ _messages u1 → y ∈ _messages u2 → handle_ref x ≠ handle_ref y.
Proof.
  intros Hrows.
  set (n := length (row :: rows)). set (msgs := message_of_row <$> row :: rows).
  set (u1 := mkUser (row_user_id row) (row_user_name row)
               (proxies_from (length (heap w)) n)).
  set (h1 := heap w ++ msgs ++ [OUser u1]).
  set (u2 := mkUser (row_user_id row) (row_user_name row)
               (proxies_from (length h1) n)).
  assert (length msgs = n) as Hmsgs by apply length_fmap.
  assert (length h1 = (length (heap w) + n + 1)%nat) as Hlen.
  { unfold h1. rewrite !length_app, Hmsgs. cbn [length]. lia. }
  exists (mkUserProxy (length (heap w) + n)), (set_heap h1 w),
         (mkUserProxy (length h1 + n)),
         (set_heap (h1 ++ msgs ++ [OUser u2]) (set_heap h1 w)), u1, u2.
  split; [exact (UserRepository_with_id_run w uid row rows Hrows)|].
  split; [exact (UserRepository_with_id_run (set_heap h1 w) uid row rows Hrows)|].
  cbn [_user heap set_heap _user_id _name _messages u1 u2].
  split; [lia|].
  split; [by intros r Hr; rewrite lookup_app_l|].
  split.
  { rewrite lookup_app_l by lia. unfold h1.
    rewrite app_assoc, <- Hmsgs, <- length_app. by rewrite list_lookup_middle. }
  split.
  { rewrite app_assoc, <- Hmsgs, <- length_app. by rewrite list_lookup_middle. }
  split; [done|]. split; [done|].
  split; [unfold proxies_from; by rewrite !length_fmap, !length_seq|].
  intros x y Hx%proxies_from_refs Hy%proxies_from_refs. lia.
Qed.

Lemma X14_witness :
  ∃ p1 w1 p2 w2,
    UserRepository_with_id 1 seeded_world = (Ok p1, w1)
    ∧ UserRepository_with_id 1 w1 = (Ok p2, w2)
    ∧ _user p1 ≠ _user p2.
Proof.
  destruct (X14_with_id_twice_builds_distinct_aggregates seeded_world 1
              (mkRow 1 "bob" 1 "body 1")
              [mkRow 1 "bob" 2 "body 2"; mkRow 1 "bob" 3 "body 3"])
    as (p1 & w1 & p2 & w2 & _ & _ & H1 & H2 & Hne & _).
  - vm_compute. reflexivity.
  - by exists p1, w1, p2, w2.
Defined.

(** ** What a load takes from the store *)

(** X15: a successful [with_id] builds its aggregate from the store and
    nothing else.  The user it returns has the identity asked for and the
    name stored under it; its message list consists of proxies, one per
    stored message owned by that user, in storage order, each wrapping a
    message with the identity and body of its row.  Loading registers
    nothing and leaves the store as it was. *)
Theorem X15_with_id_loads_the_rows_of_the_user
    (w : world) (uid : Z) (p : UserProxy_t) (w1 : world) :
  UserRepository_with_id uid w = (Ok p, w1) →
  ∃ u,
    heap w1 !! _user p = Some (OUser u)
    ∧ _user_id u = uid
    ∧ users (txn w) !! uid = Some (_name u)
    ∧ Forall2 (λ x m, is_proxied x = true
                      ∧ heap w1 !! handle_ref x
                        = Some (OMessage (mkMessage (msg_id m) (msg_body m))))
              (_messages u)
              (filter (λ m, msg_user_id m = Some uid) (messages (txn w)))
    ∧ txn w1 = txn w ∧ durable w1 = durable w
    ∧ dirty w1 = dirty w ∧ new w1 = new w ∧ trace w1 = trace w.
Proof.
  intros Hload.
  destruct (join_rows uid (txn w)) as [|row rows] eqn:Hrows.
  { by rewrite UserRepository_with_id_no_rows in Hload. }
  rewrite (UserRepository_with_id_run _ _ _ _ Hrows) in Hload.
  injection Hload as <- <-.
  assert (row ∈ join_rows uid (txn w)) as Hin by (rewrite Hrows; apply list_elem_of_here).
  apply join_rows_user_columns in Hin as [Hid Hname].
  unfold join_rows in Hrows. rewrite Hname in Hrows.
  set (owned := filter (λ m, msg_user_id m = Some uid) (messages (txn w))) in *.
  set (all := row :: rows) in *.
  assert (length all = length owned) as Hlen by (by rewrite <- Hrows, length_fmap).
  set (user := mkUser (row_user_id row) (row_user_name row)
                 (proxies_from (length (heap w)) (length all))).
  set (h1 := heap w ++ (message_of_row <$> all) ++ [OUser user]).
  assert (h1 !! (length (heap w) + length all)%nat = Some (OUser user)) as Huser.
  { unfold h1. rewrite app_assoc.
    rewrite <- (length_fmap message_of_row all), <- length_app.
    by rewrite list_lookup_middle. }
  exists user. split; [exact Huser|].
  split; [done|]. split; [done|]. split; [|done].
  change (heap (set_heap h1 w)) with h1.
  change (_messages user) with (proxies_from (length (heap w)) (length all)).
  apply Forall2_same_length_lookup_2.
  { unfold proxies_from. by rewrite length_fmap, length_seq. }
  intros i x m Hx Hm.
  unfold proxies_from in Hx. apply list_lookup_fmap_Some_1 in Hx as (r & -> & Hr).
  apply lookup_seq in Hr as [-> Hi]. split; [done|].
  cbn [handle_ref _message].
  assert (all !! i = Some (mkRow uid (row_user_name row) (msg_id m) (msg_body m)))
    as Hrow by (by rewrite <- Hrows, list_lookup_fmap, Hm).
  exact (created_lookup (heap w) all [OUser user] i _ Hrow).
Qed.

Lemma X15_witness :
  ∃ u, heap (UserRepository_with_id 2 seeded_world).2 !! 1%nat = Some (OUser u)
       ∧ _user_id u = 2%Z.
Proof.
  destruct (X15_with_id_loads_the_rows_of_the_user seeded_world 2
              (mkUserProxy 1) (UserRepository_with_id 2 seeded_world).2)
    as (u & Hu & Hid & _).
  - vm_compute. reflexivity.
  - exists u. by split.
Defined.

(** ** Round trip through the store *)

Lemma run_bind_assoc {A B C} (m : M A) (f : A → M B) (g : B → M C) w :
  (m ≫= (λ a, f a ≫= g)) w = ((m ≫= f) ≫= g) w.
Proof. rewrite !run_bind. by destruct (m w) as [[a|e] w']. Qed.

Lemma UserRepository_with_id_inv w uid p w1 :
  UserRepository_with_id uid w = (Ok p, w1) →
  ∃ row rows,
    join_rows uid (txn w) = row :: rows
    ∧ row_user_id row = uid
    ∧ p = mkUserProxy (length (heap w) + length (row :: rows))
    ∧ w1 = set_heap (heap w ++ (message_of_row <$> row :: rows) ++
                     [OUser (mkUser uid (row_user_name row)
                               (proxies_from (length (heap w)) (length (row :: rows))))])
             w.
Proof.
  intros Hload.
  destruct (join_rows uid (txn w)) as [|row rows] eqn:Hrows.
  { by rewrite UserRepository_with_id_no_rows in Hload. }
  rewrite (UserRepository_with_id_run _ _ _ _ Hrows) in Hload.
  assert (row ∈ join_rows uid (txn w)) as Hin by (rewrite Hrows; apply list_elem_of_here).
  apply join_rows_user_columns in Hin as [Hid _].
  exists row, rows. injection Hload as <- <-. by subst uid.
Qed.

Lemma loaded_user_lookup (h : list obj) (rows : list Row) (o : obj) :
  (h ++ (message_of_row <$> rows) ++ [o]) !! (length h + length rows)%nat = Some o.
Proof.
  rewrite app_assoc, <- (length_fmap message_of_row rows), <- length_app.
  by rewrite list_lookup_middle.
Qed.

Lemma with_id_then_name w uid row rows :
  join_rows uid (txn w) = row :: rows →
  ((p ← UserRepository_with_id uid; UserProxy_name p) w).1 = Ok (row_user_name row).
Proof.
  intros Hrows.
  rewrite (run_bind_ok _ _ _ _ _ (UserRepository_with_id_run _ _ _ _ Hrows)).
  unfold UserProxy_name. cbn [_user].
  set (u := mkUser (row_user_id row) (row_user_name row) _).
  rewrite (User_name_run _ _ u); [done|]. cbn [heap set_heap].
  apply loaded_user_lookup.
Qed.

Lemma join_rows_renamed uid name db row rows :
  join_rows uid db = row :: rows →
  join_rows uid (apply_update UpdateUsersName (name, uid) db)
  = (λ r, mkRow (row_user_id r) name (row_message_id r) (row_message_body r))
      <$> row :: rows.
Proof.
  unfold join_rows. cbn [apply_update users messages fst snd].
  rewrite lookup_alter_eq.
  destruct (users db !! uid) as [old|]; [|done].
  change ((λ _ : string, name) <$> Some old) with (Some name).
  intros <-. by rewrite <- list_fmap_compose.
Qed.

Lemma rename_commit_run p name w u :
  heap w !! _user p = Some (OUser u) →
  dirty w = [] →
  mappers w !! KUserMapper = Some (VMapper UserMapperObj) →
  ∃ w',
    (UserProxy_rename p name ;; UnitOfWork_commit) w = (Ok tt, w')
    ∧ txn w' = apply_update UpdateUsersName (name, _user_id u) (txn w).
Proof.
  intros Hu Hdirty Hmapper.
  rewrite (run_bind_ok _ _ _ _ _ (UserProxy_rename_run p name w u Hu)), Hdirty.
  set (h1 := <[_user p:=OUser (mkUser (_user_id u) name (_messages u))]> (heap w)).
  assert (h1 !! _user p = Some (OUser (mkUser (_user_id u) name (_messages u))))
    as Hnew by (apply list_lookup_insert_eq; by eapply lookup_lt_Some).
  change (setdefault_append KUserMapper (_user p) [])
    with [(KUserMapper, [_user p])].
  set (w1 := set_heap h1 _).
  assert (forallb (well_typed_batch w1) (dirty w1) = true) as Hty.
  { simpl. unfold well_typed_batch. simpl. rewrite Hmapper. simpl.
    unfold is_user. change (heap w1) with h1. by rewrite Hnew. }
  eexists. split.
  { rewrite UnitOfWork_commit_run, (flush_all_well_typed _ _ Hty). reflexivity. }
  cbn [durable txn dirty heap set_durable set_trace set_txn set_heap set_dirty w1 foldl].
  unfold batch_update. cbn [mappers heap set_heap set_dirty fst snd w1].
  rewrite Hmapper. unfold user_params. simpl. by rewrite Hnew.
Qed.

(** X16: what a rename commits is what the next load reads.  For a user
    loaded with [with_id] into a unit of work that holds nothing yet,
    with a user mapper registered: renaming it through the proxy,
    committing and loading the same identity again yields a user with the
    new name. *)
Theorem X16_rename_commit_reload
    (w : world) (uid : Z) (p : UserProxy_t) (w1 : world) (name : string) :
  UserRepository_with_id uid w = (Ok p, w1) →
  dirty w = [] →
  mappers w !! KUserMapper = Some (VMapper UserMapperObj) →
  ((UserProxy_rename p name ;;
    UnitOfWork_commit ;;
    p' ← UserRepository_with_id uid;
    UserProxy_name p') w1).1 = Ok name.
Proof.
  intros (row & rows & Hrows & Hid & -> & ->)%UserRepository_with_id_inv
         Hdirty Hmapper.
  set (u := mkUser uid (row_user_name row) _).
  set (w1 := set_heap _ w).
  assert (heap w1 !! (length (heap w) + length (row :: rows))%nat = Some (OUser u))
    as Hu by apply loaded_user_lookup.
  destruct (rename_commit_run (mkUserProxy (length (heap w) + length (row :: rows)))
              name w1 u Hu Hdirty Hmapper) as (w3 & Hrun & Htxn).
  rewrite (run_bind_assoc (UserProxy_rename _ name) (λ _, UnitOfWork_commit)
             (λ _, p' ← UserRepository_with_id uid; UserProxy_name p') w1).
  rewrite (run_bind_ok _ _ _ _ _ Hrun).
  assert (join_rows uid (txn w3)
          = (λ r, mkRow (row_user_id r) name (row_message_id r) (row_message_body r))
              <$> row :: rows) as Hrows3.
  { rewrite Htxn. by apply join_rows_renamed. }
  rewrite fmap_cons in Hrows3.
  by rewrite (with_id_then_name _ _ _ _ Hrows3).
Qed.

Lemma X16_witness :
  ((UserProxy_rename (mkUserProxy 3) "robert" ;;
    UnitOfWork_commit ;;
    p' ← UserRepository_with_id 1;
    UserProxy_name p')
     (UserRepository_with_id 1
        (set_mappers {[KUserMapper := VMapper UserMapperObj]} seeded_world)).2).1
  = Ok "robert".
Proof.
  apply (X16_rename_commit_reload
           (set_mappers {[KUserMapper := VMapper UserMapperObj]} seeded_world)
           1 (mkUserProxy 3)).
  - vm_compute. reflexivity.
  - reflexivity.
  - vm_compute. reflexivity.
Defined.

(** ** The use case on any store *)

Lemma edit_message_aggregate uref s n u mid body w :
  aggregate_at (heap w) uref s n u →
  ∃ H,
    UserProxy_edit_message (mkUserProxy uref) mid body w
    = (Ok tt,
       set_dirty (foldl (λ d r, setdefault_append KMessageMapper r d) (dirty w)
                    (filter (λ r, has_id (heap w) mid r = true) (seq s n)))
         (set_heap H w))
    ∧ (∀ r, H !! r =
            if bool_decide (r ∈ seq s n) && has_id (heap w) mid r
            then Some (OMessage (mkMessage mid body))
            else heap w !! r)
    ∧ aggregate_at H uref s n u.
Proof.
  intros (Hu & Hmsgs & Hall).
  assert (Forall (λ x, is_message (heap w) (handle_ref x) = true) (_messages u))
    as Hhandles.
  { rewrite Hmsgs. apply Forall_forall. intros x Hx.
    apply (list_elem_of_fmap_2 handle_ref) in Hx.
    rewrite handle_ref_proxies_from in Hx.
    rewrite Forall_forall in Hall. by apply Hall. }
  destruct (edit_loop_run mid body _ w Hhandles) as (H & Hrun & Hlen & Hpt).
  rewrite Hmsgs, dirtied_proxies_from, handle_ref_proxies_from in *.
  exists H. split; [|split; [done|]].
  - unfold UserProxy_edit_message. cbn [_user].
    rewrite (User_edit_message_run _ u _ _ _ Hu). by rewrite Hmsgs.
  - split; [|split; [done|]].
    + rewrite Hpt. unfold has_id. rewrite Hu. by rewrite andb_false_r.
    + apply Forall_forall. intros r Hr. unfold is_message. rewrite Hpt.
      rewrite bool_decide_eq_true_2 by done. simpl.
      destruct (has_id (heap w) mid r); [done|].
      rewrite Forall_forall in Hall. by apply Hall.
Qed.

Lemma forallb_Forall_true {A} (f : A → bool) l :
  Forall (λ x, f x = true) l → forallb f l = true.
Proof. induction 1 as [|x l Hx _ IH]; [done|]. simpl. by rewrite Hx, IH. Qed.

Lemma message_params_const h m0 (l : list ref) :
  Forall (λ r, h !! r = Some (OMessage m0)) l →
  message_params h l = replicate (length l) (_body m0, _message_id m0).
Proof.
  induction 1 as [|r l Hr _ IH]; [done|].
  change (r :: l) with ([r] ++ l). rewrite message_params_app, IH.
  unfold message_params. simpl. by rewrite Hr.
Qed.

Lemma foldl_setdefault_append_nil k (l : list ref) :
  foldl (λ d r, setdefault_append k r d) [] l
  = match l with [] => [] | _ :: _ => [(k, l)] end.
Proof.
  destruct l as [|r l]; [done|].
  change (foldl (λ d r, setdefault_append k r d) [] (r :: l))
    with (foldl (λ d r, setdefault_append k r d) (setdefault_append k r []) l).
  unfold setdefault_append at 2. simpl. rewrite decide_True by done.
  by rewrite foldl_setdefault_append_single.
Qed.

Lemma has_id_after_other_edit (h H : list obj) (P : ref → bool) mid1 mid2 b1 :
  mid1 ≠ mid2 →
  (∀ r, H !! r = if P r && has_id h mid1 r
                 then Some (OMessage (mkMessage mid1 b1)) else h !! r) →
  ∀ r, has_id H mid2 r = has_id h mid2 r.
Proof.
  intros Hne Hpt r. unfold has_id at 1. rewrite Hpt.
  destruct (P r && has_id h mid1 r) eqn:Hc; [|done].
  apply andb_true_iff in Hc as [_ Hc]. simpl.
  rewrite bool_decide_eq_false_2 by done.
  unfold has_id in *. destruct (h !! r) as [[m|]|]; try done.
  apply bool_decide_eq_true in Hc. symmetry. apply bool_decide_eq_false. congruence.
Qed.

Lemma edit_edit_rename_commit_run uref s n u mid1 b1 mid2 b2 name w :
  mid1 ≠ mid2 →
  aggregate_at (heap w) uref s n u →
  dirty w = [] →
  mappers w !! KMessageMapper = Some (VMapper MessageMapperObj) →
  mappers w !! KUserMapper = Some (VMapper UserMapperObj) →
  ∃ w',
    edit_edit_rename_commit (mkUserProxy uref) mid1 b1 mid2 b2 name w = (Ok tt, w')
    ∧ txn w'
      = executemany UpdateUsersName [(name, _user_id u)]
          (executemany UpdateMessagesBody
             (replicate (length (filter (λ r, has_id (heap w) mid1 r = true) (seq s n)))
                        (b1, mid1)
              ++ replicate (length (filter (λ r, has_id (heap w) mid2 r = true) (seq s n)))
                           (b2, mid2))
             (txn w))
    ∧ durable w' = txn w'.
Proof.
  intros Hne Hagg Hdirty HmM HmU. unfold edit_edit_rename_commit.
  (* first edit *)
  destruct (edit_message_aggregate uref s n u mid1 b1 w Hagg)
    as (H1 & Hrun1 & Hpt1 & Hagg1).
  rewrite (run_bind_ok _ _ _ _ _ Hrun1), Hdirty.
  set (M1 := filter (λ r, has_id (heap w) mid1 r = true) (seq s n)) in *.
  set (w2 := set_dirty _ (set_heap H1 w)).
  (* second edit *)
  destruct (edit_message_aggregate uref s n u mid2 b2 w2 Hagg1)
    as (H2 & Hrun2 & Hpt2 & Hagg2).
  rewrite (run_bind_ok _ _ _ _ _ Hrun2).
  change (heap w2) with H1 in Hpt2.
  assert (filter (λ r, has_id (heap w2) mid2 r = true) (seq s n)
          = filter (λ r, has_id (heap w) mid2 r = true) (seq s n)) as ->.
  { apply list_filter_iff. intros r. change (heap w2) with H1.
    by rewrite (has_id_after_other_edit (heap w) H1
                  (λ r, bool_decide (r ∈ seq s n)) mid1 mid2 b1 Hne Hpt1). }
  set (M2 := filter (λ r, has_id (heap w) mid2 r = true) (seq s n)) in *.
  change (dirty w2) with (foldl (λ d r, setdefault_append KMessageMapper r d) [] M1).
  rewrite <- foldl_app, foldl_setdefault_append_nil.
  set (D2 := match M1 ++ M2 with [] => [] | _ :: _ => [(KMessageMapper, M1 ++ M2)] end).
  set (w3 := set_dirty D2 (set_heap H2 w2)).
  (* rename *)
  destruct Hagg2 as (Hu2 & _ & Hall2).
  rewrite (run_bind_ok _ _ _ _ _ (UserProxy_rename_run (mkUserProxy uref) name w3 u Hu2)).
  cbn [_user]. change (heap w3) with H2. change (dirty w3) with D2.
  set (u' := mkUser (_user_id u) name (_messages u)).
  set (H4 := <[uref:=OUser u']> H2).
  set (w4 := set_heap H4 _).
  assert (H4 !! uref = Some (OUser u')) as Hu4
    by (apply list_lookup_insert_eq; by eapply lookup_lt_Some).
  assert (∀ r, is_message H2 r = true → H4 !! r = H2 !! r) as Hkeep.
  { intros r Hr. unfold H4. apply list_lookup_insert_ne. intros <-.
    unfold is_message in Hr. by rewrite Hu2 in Hr. }
  rewrite Forall_forall in Hall2.
  assert (Forall (λ r, H4 !! r = Some (OMessage (mkMessage mid1 b1))) M1) as HM1.
  { apply Forall_forall. intros r [Hhas Hin]%list_elem_of_filter.
    rewrite (Hkeep r (Hall2 r Hin)), Hpt2.
    rewrite (has_id_after_other_edit (heap w) H1
               (λ r, bool_decide (r ∈ seq s n)) mid1 mid2 b1 Hne Hpt1).
    assert (has_id (heap w) mid2 r = false) as ->.
    { unfold has_id in *. destruct (heap w !! r) as [[m|]|]; try done.
      apply bool_decide_eq_true in Hhas. apply bool_decide_eq_false. congruence. }
    rewrite andb_false_r, Hpt1, Hhas.
    by rewrite bool_decide_eq_true_2. }
  assert (Forall (λ r, H4 !! r = Some (OMessage (mkMessage mid2 b2))) M2) as HM2.
  { apply Forall_forall. intros r [Hhas Hin]%list_elem_of_filter.
    rewrite (Hkeep r (Hall2 r Hin)), Hpt2.
    rewrite (has_id_after_other_edit (heap w) H1
               (λ r, bool_decide (r ∈ seq s n)) mid1 mid2 b1 Hne Hpt1), Hhas.
    by rewrite bool_decide_eq_true_2. }
  assert (message_params H4 (M1 ++ M2)
          = replicate (length M1) (b1, mid1) ++ replicate (length M2) (b2, mid2))
    as Hparams.
  { rewrite message_params_app.
    by rewrite (message_params_const _ _ _ HM1), (message_params_const _ _ _ HM2). }
  assert (forallb (is_message H4) (M1 ++ M2) = true) as HtyM.
  { apply forallb_Forall_true, Forall_app. split.
    - eapply Forall_impl; [exact HM1|]. intros r Hr. unfold is_message. by rewrite Hr.
    - eapply Forall_impl; [exact HM2|]. intros r Hr. unfold is_message. by rewrite Hr. }
  assert (user_params H4 [uref] = [(name, _user_id u)]) as HparamsU.
  { unfold user_params. simpl. by rewrite Hu4. }
  assert (is_user H4 uref = true) as HtyU by (unfold is_user; by rewrite Hu4).
  (* commit *)
  rewrite UnitOfWork_commit_run.
  assert (mappers w4 = mappers w) as Hmw by done.
  assert (heap w4 = H4) as Hhw by done.
  assert (txn w4 = txn w) as Htw by done.
  assert (dirty w4 = setdefault_append KUserMapper uref D2) as Hdw by done.
  rewrite Hdw. unfold D2.
  destruct (M1 ++ M2) as [|r0 L] eqn:HL.
  - apply app_eq_nil in HL as [HM1nil HM2nil].
    change (setdefault_append KUserMapper uref []) with [(KUserMapper, [uref])].
    rewrite flush_all_well_typed.
    + eexists. split; [reflexivity|].
      cbn [txn durable set_durable set_trace set_txn foldl].
      unfold batch_update. cbn [fst snd]. rewrite Hmw, Hhw, Htw, HmU, HparamsU.
      by rewrite HM1nil, HM2nil.
    + simpl. unfold well_typed_batch. cbn [fst snd].
      rewrite Hmw, Hhw, HmU. simpl. by rewrite HtyU.
  - change (setdefault_append KUserMapper uref [(KMessageMapper, r0 :: L)])
      with [(KMessageMapper, r0 :: L); (KUserMapper, [uref])].
    rewrite flush_all_well_typed.
    + eexists. split; [reflexivity|].
      cbn [txn durable set_durable set_trace set_txn foldl].
      unfold batch_update. cbn [fst snd].
      by rewrite Hmw, Hhw, Htw, HmU, HmM, HparamsU, Hparams.
    + simpl. unfold well_typed_batch. cbn [fst snd].
      rewrite Hmw, Hhw, HmU, HmM. cbn [forallb]. cbn [forallb] in HtyM.
      by rewrite HtyM, HtyU.
Qed.

Lemma written_app a b id :
  written (a ++ b) id
  = match written b id with Some v => Some v | None => written a id end.
Proof.
  unfold written. rewrite filter_app, last_app.
  by destruct (last (filter (λ p, p.2 = id) b)).
Qed.

Lemma written_replicate_gen k v key id :
  written (replicate k (v, key)) id
  = if decide (key = id ∧ k ≠ 0%nat) then Some v else None.
Proof.
  destruct k as [|k].
  - rewrite decide_False by (by intros [_ ?]). done.
  - rewrite written_replicate. destruct (decide (key = id)) as [->|Hne].
    + by rewrite decide_True.
    + rewrite decide_False by (by intros [? _]). done.
Qed.

Lemma join_rows_owned uid db m :
  is_Some (users db !! uid) →
  m ∈ messages db → msg_user_id m = Some uid →
  ∃ row, row ∈ join_rows uid db ∧ row_message_id row = msg_id m.
Proof.
  intros [name Hname] Hm Hown. unfold join_rows. rewrite Hname.
  exists (mkRow uid name (msg_id m) (msg_body m)). split; [|done].
  apply (list_elem_of_fmap_2 (λ m, mkRow uid name (msg_id m) (msg_body m))).
  by apply list_elem_of_filter.
Qed.

Lemma loaded_aggregate (h : list obj) (rows : list Row) (uid : Z) (name : string) :
  aggregate_at
    (h ++ (message_of_row <$> rows) ++
     [OUser (mkUser uid name (proxies_from (length h) (length rows)))])
    (length h + length rows) (length h) (length rows)
    (mkUser uid name (proxies_from (length h) (length rows))).
Proof.
  split; [apply loaded_user_lookup|]. split; [done|].
  apply Forall_forall. intros r (i & row & -> & Hi)%created_seq_inv.
  unfold is_message. by rewrite (created_lookup _ _ _ _ _ Hi).
Qed.

(** X17: [Interactor.execute] on any store in which user 1 owns at least
    one message, with a unit of work that holds nothing yet and both
    mappers registered, succeeds and commits.  Afterwards user 1 is
    stored as "new username" and no other user changed; every message
    row keeps its place, identity and owner; the rows of user 1 with
    identity 1 and 2 hold the two new bodies; a row with another identity,
    or with identity 1 or 2 when user 1 owns no message of that identity,
    keeps its body. *)
Theorem X17_Interactor_execute_persists
    (w : world) (row : Row) (rows : list Row) :
  join_rows 1 (txn w) = row :: rows →
  dirty w = [] →
  mappers w !! KMessageMapper = Some (VMapper MessageMapperObj) →
  mappers w !! KUserMapper = Some (VMapper UserMapperObj) →
  ∃ w',
    Interactor_execute w = (Ok tt, w')
    ∧ durable w' = txn w'
    ∧ users (durable w') !! 1%Z = Some "new username"
    ∧ (∀ id, id ≠ 1%Z → users (durable w') !! id = users (txn w) !! id)
    ∧ length (messages (durable w')) = length (messages (txn w))
    ∧ ∀ i m, messages (txn w) !! i = Some m →
        ∃ body',
          messages (durable w') !! i
          = Some (mkMessageRow (msg_id m) body' (msg_user_id m))
          ∧ (msg_user_id m = Some 1%Z → msg_id m = 1%Z →
             body' = "new message body 1")
          ∧ (msg_user_id m = Some 1%Z → msg_id m = 2%Z →
             body' = "new message body 2")
          ∧ (msg_id m ≠ 1%Z → msg_id m ≠ 2%Z → body' = msg_body m)
          ∧ (∀ k, k = 1%Z ∨ k = 2%Z → msg_id m = k →
                  Forall (λ r, row_message_id r ≠ k) (row :: rows) →
                  body' = msg_body m).
Proof.
  intros Hrows Hdirty HmM HmU.
  assert (row ∈ join_rows 1 (txn w)) as Hin by (rewrite Hrows; apply list_elem_of_here).
  apply join_rows_user_columns in Hin as [Hid Hname].
  unfold Interactor_execute.
  rewrite (run_bind_ok _ _ _ _ _ (UserRepository_with_id_run w 1 row rows Hrows)).
  rewrite Hid.
  set (all := row :: rows) in *.
  set (u := mkUser 1 (row_user_name row) (proxies_from (length (heap w)) (length all))).
  set (h1 := heap w ++ (message_of_row <$> all) ++ [OUser u]).
  destruct (edit_edit_rename_commit_run (length (heap w) + length all) (length (heap w))
              (length all) u 1 "new message body 1" 2 "new message body 2"
              "new username" (set_heap h1 w))
    as (w' & Hrun & Htxn & Hdur); [done|apply loaded_aggregate|done..|].
  exists w'. split; [exact Hrun|]. split; [done|].
  cbn [heap txn set_heap _user_id u] in Htxn.
  set (a := length (filter (λ r, has_id h1 1 r = true) (seq (length (heap w)) (length all)))) in *.
  set (c := length (filter (λ r, has_id h1 2 r = true) (seq (length (heap w)) (length all)))) in *.
  assert (∀ k, Forall (λ r, row_message_id r ≠ k) all →
               filter (λ r, has_id h1 k r = true) (seq (length (heap w)) (length all)) = [])
    as Hnone by (intros k; apply matching_nil_iff).
  assert (∀ m k, m ∈ messages (txn w) → msg_user_id m = Some 1%Z → msg_id m = k →
                 filter (λ r, has_id h1 k r = true) (seq (length (heap w)) (length all))
                 ≠ []) as Hsome.
  { intros m k Hm Hown Hk Hnil.
    apply (matching_nil_iff (heap w) all [OUser u] k) in Hnil.
    destruct (join_rows_owned 1 (txn w) m) as (r & Hr & Hrid); [by eexists|done..|].
    rewrite Hrows in Hr. rewrite Forall_forall in Hnil.
    apply (Hnil r Hr). congruence. }
  rewrite Hdur, Htxn. split; [|split; [|split]].
  - rewrite executemany_users, executemany_messages_users, Hname. done.
  - intros id Hne. rewrite executemany_users, executemany_messages_users.
    unfold written. rewrite filter_cons_False by (simpl; congruence).
    by destruct (users (txn w) !! id).
  - by rewrite executemany_users_messages, executemany_messages, length_fmap.
  - intros i m Hm. rewrite executemany_users_messages, executemany_messages.
    eexists. split; [by rewrite list_lookup_fmap, Hm|].
    assert (m ∈ messages (txn w)) as Hmin by (by eapply list_elem_of_lookup_2).
    rewrite written_app, !written_replicate_gen.
    split; [|split; [|split]].
    + intros Hown Hk. rewrite Hk.
      rewrite (decide_False (P := (2%Z = 1%Z ∧ _))) by (by intros [? _]).
      rewrite decide_True; [done|]. split; [done|].
      unfold a. intros Hlen%length_zero_iff_nil. by apply (Hsome m 1%Z).
    + intros Hown Hk. rewrite Hk.
      rewrite decide_True; [done|]. split; [done|].
      unfold c. intros Hlen%length_zero_iff_nil. by apply (Hsome m 2%Z).
    + intros H1 H2.
      rewrite (decide_False (P := (2%Z = _ ∧ _))) by (intros [? _]; congruence).
      rewrite decide_False by (intros [? _]; congruence). done.
    + intros k [->| ->] Hk Hall; rewrite Hk.
      * rewrite (decide_False (P := (2%Z = 1%Z ∧ _))) by (by intros [? _]).
        rewrite decide_False; [done|]. intros [_ Ha]. apply Ha.
        unfold a. by rewrite (Hnone 1%Z Hall).
      * rewrite decide_False; [|intros [_ Hc]; apply Hc; unfold c;
                                by rewrite (Hnone 2%Z Hall)].
        rewrite decide_False by (by intros [? _]). done.
Qed.

Lemma X17_witness :
  ∃ w', Interactor_execute wired_world = (Ok tt, w')
        ∧ users (durable w') !! 1%Z = Some "new username".
Proof.
  destruct (X17_Interactor_execute_persists wired_world
              (mkRow 1 "bob" 1 "body 1")
              [mkRow 1 "bob" 2 "body 2"; mkRow 1 "bob" 3 "body 3"])
    as (w' & Hrun & _ & Hname & _).
  - vm_compute. reflexivity.
  - reflexivity.
  - vm_compute. reflexivity.
  - vm_compute. reflexivity.
  - exists w'. by split.
Defined.

(** ** Committing twice *)

Lemma executemany_app stmt p1 p2 db :
  executemany stmt (p1 ++ p2) db = executemany stmt p2 (executemany stmt p1 db).
Proof. unfold executemany. by rewrite foldl_app. Qed.

Lemma database_ext db1 db2 :
  users db1 = users db2 → messages db1 = messages db2 → db1 = db2.
Proof. destruct db1, db2. simpl. by intros -> ->. Qed.

Lemma executemany_swap pu pm db :
  executemany UpdateMessagesBody pm (executemany UpdateUsersName pu db)
  = executemany UpdateUsersName pu (executemany UpdateMessagesBody pm db).
Proof.
  apply database_ext.
  - rewrite executemany_messages_users. apply map_eq. intros id.
    by rewrite !executemany_users, executemany_messages_users.
  - by rewrite executemany_users_messages, !executemany_messages,
      executemany_users_messages.
Qed.

(** A flush of all batches is one batched update per table. *)
Lemma flush_all_tables w items db :
  foldl (λ d item, batch_update w item d) db items
  = executemany UpdateUsersName (all_user_params w items)
      (executemany UpdateMessagesBody (all_message_params w items) db).
Proof.
  unfold all_user_params, all_message_params.
  revert db. induction items as [|item items IH]; intros db; [done|].
  cbn [foldl]. rewrite IH. rewrite !bind_cons, !executemany_app.
  unfold batch_update.
  destruct (mappers w !! item.1) as [[| | | |[]]|]; try done.
  by rewrite executemany_swap.
Qed.

Lemma executemany_idempotent stmt params db :
  executemany stmt params (executemany stmt params db) = executemany stmt params db.
Proof.
  apply database_ext; destruct stmt.
  - apply map_eq. intros id. rewrite !executemany_users.
    destruct (users db !! id) as [old|]; [|done]. simpl.
    by destruct (written params id).
  - by rewrite !executemany_messages_users.
  - by rewrite !executemany_users_messages.
  - rewrite !executemany_messages, <- list_fmap_compose.
    apply list_fmap_ext. intros i m _. simpl.
    by destruct (written params (msg_id m)).
Qed.

Lemma flush_all_idempotent w items db :
  foldl (λ d item, batch_update w item d)
    (foldl (λ d item, batch_update w item d) db items) items
  = foldl (λ d item, batch_update w item d) db items.
Proof.
  rewrite !flush_all_tables.
  by rewrite executemany_swap, !executemany_idempotent.
Qed.

(** X18: [commit] does not clear the dirty map, and a second [commit]
    flushes the same batches again.  With well-typed batches both commits
    succeed; each of them calls [update_all] once per kind of the dirty
    map, in its iteration order, on the mapper of the kind and with the
    whole list of the kind, and then commits the connection; and the
    second one changes no row: the store after two commits is the store
    after one. *)
Theorem X18_second_commit_changes_no_row (w : world) :
  forallb (well_typed_batch w) (dirty w) = true →
  ∃ w1 w2 calls,
    UnitOfWork_commit w = (Ok tt, w1)
    ∧ UnitOfWork_commit w1 = (Ok tt, w2)
    ∧ Forall2 (λ item call, ∃ m, mappers w !! item.1 = Some (VMapper m)
                                 ∧ call = MapperCall m m_update_all item.2)
              (dirty w) calls
    ∧ trace w1 = trace w ++ calls ++ [ConnectionCommit]
    ∧ trace w2 = trace w1 ++ calls ++ [ConnectionCommit]
    ∧ txn w2 = txn w1 ∧ durable w2 = durable w1
    ∧ dirty w2 = dirty w ∧ heap w2 = heap w.
Proof.
  intros Hty. eexists _, _, (omap (dispatched w) (dirty w)). split.
  { rewrite UnitOfWork_commit_run, (flush_all_well_typed _ _ Hty). reflexivity. }
  set (w1 := set_durable _ _).
  assert (forallb (well_typed_batch w1) (dirty w1) = true) as Hty1 by exact Hty.
  split.
  { rewrite UnitOfWork_commit_run, (flush_all_well_typed _ _ Hty1). reflexivity. }
  split; [by apply dispatched_well_typed|].
  split; [unfold w1; cbn [trace set_durable set_trace set_txn]; by rewrite <- app_assoc|].
  split.
  { cbn [trace set_durable set_trace set_txn].
    change (omap (dispatched w1) (dirty w1)) with (omap (dispatched w) (dirty w)).
    by rewrite <- app_assoc. }
  pose proof (flush_all_idempotent w (dirty w) (txn w)) as Hidem.
  split; [exact Hidem|]. split; [exact Hidem|]. done.
Qed.

Lemma X18_witness :
  ∃ w1 w2,
    UnitOfWork_commit world_with_both_mappers = (Ok tt, w1)
    ∧ UnitOfWork_commit w1 = (Ok tt, w2)
    ∧ trace w2
      = [MapperCall MessageMapperObj m_update_all [0%nat];
         MapperCall UserMapperObj m_update_all [1%nat]; ConnectionCommit;
         MapperCall MessageMapperObj m_update_all [0%nat];
         MapperCall UserMapperObj m_update_all [1%nat]; ConnectionCommit]
    ∧ durable w2 = durable w1.
Proof.
  destruct (X18_second_commit_changes_no_row world_with_both_mappers)
    as (w1 & w2 & calls & H1 & H2 & _ & _ & _ & _ & Hdur & _).
  - vm_compute. reflexivity.
  - exists w1, w2. split; [exact H1|]. split; [exact H2|]. split; [|exact Hdur].
    vm_compute in H1. injection H1 as <-.
    vm_compute in H2. by injection H2 as <-.
Defined.

(** ** Mutations that do not go through a proxy *)

Lemma dirtied_raw h mid hs :
  Forall (λ x, is_proxied x = false) hs → dirtied h mid hs = [].
Proof. induction 1 as [|x hs Hx _ IH]; simpl; [done|]. by rewrite Hx. Qed.

(** X19: a user whose list holds the messages themselves, not proxies,
    edits them without any trace in the unit of work: [edit_message]
    succeeds, overwrites the body of every owned message with the
    identity asked for, and changes nothing but objects. *)
Theorem X19_raw_edit_message_registers_nothing
    (w : world) (self : ref) (u : User_t) (mid : Z) (body : string) :
  heap w !! self = Some (OUser u) →
  Forall (λ x, is_proxied x = false) (_messages u) →
  Forall (λ x, is_message (heap w) (handle_ref x) = true) (_messages u) →
  ∃ w',
    User_edit_message self mid body w = (Ok tt, w')
    ∧ w' = set_heap (heap w') w
    ∧ dirty w' = dirty w ∧ new w' = new w
    ∧ ∀ x, x ∈ _messages u →
        has_id (heap w) mid (handle_ref x) = true →
        heap w' !! handle_ref x = Some (OMessage (mkMessage mid body)).
Proof.
  intros Hself Hraw Hall. rewrite (User_edit_message_run _ _ _ _ _ Hself).
  destruct (edit_loop_run mid body _ w Hall) as (H & Hrun & Hlen & Hpt).
  rewrite (dirtied_raw _ _ _ Hraw) in Hrun. simpl in Hrun.
  eexists. split; [exact Hrun|].
  cbn [heap dirty new set_heap set_dirty].
  split.
  { unfold set_dirty, set_heap. simpl. done. }
  split; [done|]. split; [done|].
  intros x Hx Hhas. rewrite Hpt, Hhas.
  by rewrite bool_decide_eq_true_2 by by apply list_elem_of_fmap_2.
Qed.

Lemma X19_witness :
  ∃ w',
    User_edit_message 1%nat 1 "edited" fresh_world = (Ok tt, w')
    ∧ dirty w' = dirty fresh_world.
Proof.
  destruct (X19_raw_edit_message_registers_nothing fresh_world 1%nat
              (mkUser 1 "bob" [RawMessage 0%nat]) 1 "edited")
    as (w' & Hrun & _ & Hdirty & _).
  - reflexivity.
  - repeat constructor.
  - repeat constructor.
  - exists w'. by split.
Defined.

Lemma commit_nothing_dirty w :
  dirty w = [] →
  UnitOfWork_commit w
  = (Ok tt, set_durable (txn w) (set_trace (trace w ++ [ConnectionCommit]) w)).
Proof. intros Hd. rewrite UnitOfWork_commit_run, Hd. reflexivity. Qed.

Lemma User_rename_run r name w u :
  heap w !! r = Some (OUser u) →
  User_rename r name w
  = (Ok tt, set_heap (<[r:=OUser (mkUser (_user_id u) name (_messages u))]> (heap w)) w).
Proof.
  intros Hu. unfold User_rename. rewrite run_bind. unfold deref. by rewrite Hu.
Qed.

(** X20: the entities know nothing of persistence.  With nothing
    registered dirty, a [Message.edit] or a [User.rename] made on the
    entity itself changes the object, and the [commit] that follows calls
    no mapper and writes no row: it only commits the transaction as it
    was. *)
Theorem X20_unproxied_mutation_is_not_persisted (w : world) :
  dirty w = [] →
  (∀ r m body, heap w !! r = Some (OMessage m) →
     ∃ w', (Message_edit r body ;; UnitOfWork_commit) w = (Ok tt, w')
           ∧ heap w' !! r = Some (OMessage (mkMessage (_message_id m) body))
           ∧ txn w' = txn w ∧ durable w' = txn w
           ∧ trace w' = trace w ++ [ConnectionCommit])
  ∧ (∀ r u name, heap w !! r = Some (OUser u) →
     ∃ w', (User_rename r name ;; UnitOfWork_commit) w = (Ok tt, w')
           ∧ heap w' !! r = Some (OUser (mkUser (_user_id u) name (_messages u)))
           ∧ txn w' = txn w ∧ durable w' = txn w
           ∧ trace w' = trace w ++ [ConnectionCommit]).
Proof.
  intros Hdirty. split.
  - intros r m body Hm.
    rewrite (run_bind_ok _ _ _ _ _ (Message_edit_run r body w m Hm)).
    rewrite commit_nothing_dirty by done.
    eexists. split; [reflexivity|].
    cbn [heap txn durable trace set_heap set_durable set_trace].
    split; [|done]. apply list_lookup_insert_eq. by eapply lookup_lt_Some.
  - intros r u name Hu.
    rewrite (run_bind_ok _ _ _ _ _ (User_rename_run r name w u Hu)).
    rewrite commit_nothing_dirty by done.
    eexists. split; [reflexivity|].
    cbn [heap txn durable trace set_heap set_durable set_trace].
    split; [|done]. apply list_lookup_insert_eq. by eapply lookup_lt_Some.
Qed.

Lemma X20_witness :
  ∃ w', (Message_edit 0%nat "lost" ;; UnitOfWork_commit) fresh_world = (Ok tt, w')
        ∧ txn w' = txn fresh_world.
Proof.
  destruct (X20_unproxied_mutation_is_not_persisted fresh_world) as [Hmsg _].
  - reflexivity.
  - destruct (Hmsg 0%nat (mkMessage 1 "body 1") "lost") as (w' & Hrun & _ & Htxn & _).
    + reflexivity.
    + exists w'. by split.
Defined.
